(** * OSM importer service: the import loop, its cursor and its store pipeline

    A shallow embedding of [index.js].  JavaScript numbers that the program
    only counts with (indices, counters, millisecond delays, timestamps) are
    integers far below 2^53 and are modelled by [Z]; coordinates are IEEE
    binary64 values and are modelled by primitive floats, of which the
    program uses only truthiness and equality.  Strings are compared and
    tested for emptiness only.  The remote API (axios), the MongoDB driver
    and the clock are collaborators: their behaviour is a parameter of the
    model, and every call to them is recorded in a trace. *)

From Stdlib Require Import ZArith NArith List Ascii String Floats Bool Lia.
From stdpp Require Import base option list gmap strings sorting.
Import ListNotations.

Set Warnings "-inexact-float".
Local Open Scope string_scope.
Local Open Scope Z_scope.

(** ** Configuration constants *)

Record Location := mkLocation {
  loc_name : string;
  loc_lat : float;
  loc_lon : float;
  loc_radius : Z
}.

Definition ALL_PROVINCES : list Location := [
  mkLocation "Metro Manila" 14.5995 120.9842 30;
  mkLocation "Quezon City" 14.6760 121.0437 15;
  mkLocation "Manila" 14.5995 120.9842 10;
  mkLocation "Makati" 14.5547 121.0244 8;
  mkLocation "BGC" 14.5507 121.0494 3;
  mkLocation "Ortigas" 14.5860 121.0566 3;
  mkLocation "Cebu" 10.3157 123.8854 25;
  mkLocation "Davao" 7.0731 125.6125 25;
  mkLocation "Baguio" 16.4119 120.5969 15;
  mkLocation "Iloilo" 10.7202 122.5621 20;
  mkLocation "Cagayan de Oro" 8.4542 124.6319 15;
  mkLocation "Laguna" 14.2691 121.3507 20;
  mkLocation "Cavite" 14.4791 120.8970 20;
  mkLocation "Bulacan" 14.7942 120.8795 20;
  mkLocation "Pampanga" 15.0794 120.6200 20;
  mkLocation "Rizal" 14.6037 121.3084 20;
  mkLocation "Batangas" 13.7565 121.0583 20;
  mkLocation "Negros Occidental" 10.6319 122.9823 20;
  mkLocation "Bohol" 9.8500 124.1435 20;
  mkLocation "Palawan" 9.8349 118.7384 25
].

Definition ESTABLISHMENT_TYPES : list string := [
  "restaurant"; "cafe"; "fast_food"; "bar"; "pub";
  "hospital"; "clinic"; "pharmacy"; "dentist"; "doctors";
  "school"; "university"; "college"; "kindergarten";
  "bank"; "atm"; "bureau_de_change";
  "fuel"; "charging_station"; "car_wash"; "car_rental";
  "supermarket"; "convenience"; "mall"; "marketplace";
  "police"; "fire_station"; "post_office"; "townhall";
  "library"; "community_centre"; "social_facility";
  "place_of_worship"; "grave_yard";
  "hotel"; "motel"; "hostel"; "guest_house";
  "park"; "playground"; "sports_centre"; "swimming_pool";
  "cinema"; "theatre"; "arts_centre"; "casino"
].

(** [arr.length] as a JavaScript number. *)
Definition js_length {A} (l : list A) : Z := Z.of_nat (length l).

(** [arr[i]]: [undefined] (here [None]) outside the array. *)
Definition js_index {A} (l : list A) (i : Z) : option A :=
  if i <? 0 then None else l !! Z.to_nat i.

(** ** State tracking *)

Record State := mkState {
  isRunning : bool;
  currentProvinceIndex : Z;
  currentTypeIndex : Z;
  totalImported : Z;
  cycleCount : Z;
  startTime : option Z;
  errors : Z;
  lastImportTime : option Z
}.

Definition initial_state : State :=
  mkState false 0 0 0 0 None 0 None.

Definition set_currentProvinceIndex (v : Z) (s : State) : State :=
  mkState (isRunning s) v (currentTypeIndex s) (totalImported s)
          (cycleCount s) (startTime s) (errors s) (lastImportTime s).

Definition set_currentTypeIndex (v : Z) (s : State) : State :=
  mkState (isRunning s) (currentProvinceIndex s) v (totalImported s)
          (cycleCount s) (startTime s) (errors s) (lastImportTime s).

Definition set_totalImported (v : Z) (s : State) : State :=
  mkState (isRunning s) (currentProvinceIndex s) (currentTypeIndex s) v
          (cycleCount s) (startTime s) (errors s) (lastImportTime s).

Definition set_cycleCount (v : Z) (s : State) : State :=
  mkState (isRunning s) (currentProvinceIndex s) (currentTypeIndex s)
          (totalImported s) v (startTime s) (errors s) (lastImportTime s).

Definition set_errors (v : Z) (s : State) : State :=
  mkState (isRunning s) (currentProvinceIndex s) (currentTypeIndex s)
          (totalImported s) (cycleCount s) (startTime s) v (lastImportTime s).

Definition set_lastImportTime (v : option Z) (s : State) : State :=
  mkState (isRunning s) (currentProvinceIndex s) (currentTypeIndex s)
          (totalImported s) (cycleCount s) (startTime s) (errors s) v.

(** ** The cursor step of [runContinuousImport] ("Move to next type")

    The step is written over the two array lengths, as the source reads
    [types.length] and [provinces.length]; [advance] is the step of this
    catalog. *)

Definition advance_in (nprov ntype : Z) (s : State) : State :=
  let s := set_currentTypeIndex (currentTypeIndex s + 1) s in
  if currentTypeIndex s >=? ntype then
    let s := set_currentTypeIndex 0 s in
    let s := set_currentProvinceIndex (currentProvinceIndex s + 1) s in
    if currentProvinceIndex s >=? nprov then
      let s := set_currentProvinceIndex 0 s in
      set_cycleCount (cycleCount s + 1) s
    else s
  else s.

Definition advance : State -> State :=
  advance_in (js_length ALL_PROVINCES) (js_length ESTABLISHMENT_TYPES).

(** Whether the step from [s] finishes a pass over the catalog (the branch
    that logs "Completed cycle"). *)
Definition completes_cycle_in (nprov ntype : Z) (s : State) : bool :=
  (currentTypeIndex s + 1 >=? ntype) && (currentProvinceIndex s + 1 >=? nprov).

Definition completes_cycle : State -> bool :=
  completes_cycle_in (js_length ALL_PROVINCES) (js_length ESTABLISHMENT_TYPES).

(** The same step as a relation, one constructor per path through the two
    nested [if]s. *)
Inductive advance_step (nprov ntype : Z) (s : State) : State -> Prop :=
| step_next_type :
    currentTypeIndex s + 1 < ntype ->
    advance_step nprov ntype s (set_currentTypeIndex (currentTypeIndex s + 1) s)
| step_next_province :
    ntype <= currentTypeIndex s + 1 ->
    currentProvinceIndex s + 1 < nprov ->
    advance_step nprov ntype s
      (set_currentProvinceIndex (currentProvinceIndex s + 1)
         (set_currentTypeIndex 0 s))
| step_next_cycle :
    ntype <= currentTypeIndex s + 1 ->
    nprov <= currentProvinceIndex s + 1 ->
    advance_step nprov ntype s
      (set_cycleCount (cycleCount s + 1)
         (set_currentProvinceIndex 0 (set_currentTypeIndex 0 s))).

(** The cursor invariant. *)
Definition cursor_ok_in (nprov ntype : Z) (s : State) : Prop :=
  0 <= currentProvinceIndex s < nprov /\ 0 <= currentTypeIndex s < ntype.

Definition cursor_ok : State -> Prop :=
  cursor_ok_in (js_length ALL_PROVINCES) (js_length ESTABLISHMENT_TYPES).

(** The number of steps taken since the cursor stood at (0, 0) in cycle 0. *)
Definition steps_done (nprov ntype : Z) (s : State) : Z :=
  (cycleCount s * nprov + currentProvinceIndex s) * ntype + currentTypeIndex s.

(** ** Raw elements and stored documents *)

(** A number is falsy when it is [0], [-0] or [NaN]; a string when empty. *)
Definition truthy_num (x : float) : bool :=
  negb (PrimFloat.is_zero x || PrimFloat.is_nan x).

Definition truthy_str (s : string) : bool :=
  match s with EmptyString => false | String _ _ => true end.

(** [a || b] where either side may be [undefined] ([None]). *)
Definition js_or {A} (truthy : A -> bool) (a b : option A) : option A :=
  match a with
  | Some x => if truthy x then a else b
  | None => b
  end.

(** [a || d] with a literal, hence truthy, right operand. *)
Definition js_or_else {A} (truthy : A -> bool) (a : option A) (d : A) : A :=
  match a with
  | Some x => if truthy x then x else d
  | None => d
  end.

(** [a || null]. *)
Definition js_or_null {A} (truthy : A -> bool) (a : option A) : option A :=
  match a with
  | Some x => if truthy x then Some x else None
  | None => None
  end.

Record Center := mkCenter {
  center_lat : option float;
  center_lon : option float
}.

(** An element of the Overpass answer: optional [lat], [lon], [center]
    and [tags]; OSM tags map strings to strings. *)
Record Element := mkElement {
  est_lat : option float;
  est_lon : option float;
  est_center : option Center;
  est_tags : option (gmap string string)
}.

(** [est.tags?.[k]] *)
Definition tag (est : Element) (k : string) : option string :=
  match est_tags est with
  | Some t => t !! k
  | None => None
  end.

(** [est.center?.lat] and [est.center?.lon] *)
Definition center_lat_of (est : Element) : option float :=
  match est_center est with
  | Some c => center_lat c
  | None => None
  end.

Definition center_lon_of (est : Element) : option float :=
  match est_center est with
  | Some c => center_lon c
  | None => None
  end.

(** [est.lat || est.center?.lat] and [est.lon || est.center?.lon] *)
Definition resolved_lat (est : Element) : option float :=
  js_or truthy_num (est_lat est) (center_lat_of est).

Definition resolved_lon (est : Element) : option float :=
  js_or truthy_num (est_lon est) (center_lon_of est).

(** The test [!lat || !lon] negated: the coordinates the loop goes on with. *)
Definition coordinates (est : Element) : option (float * float) :=
  match resolved_lat est, resolved_lon est with
  | Some la, Some lo =>
      if negb (truthy_num la) || negb (truthy_num lo) then None
      else Some (la, lo)
  | _, _ => None
  end.

(** An element without a direct pair, and without a centre pair. *)
Definition lacks_direct_pair (est : Element) : Prop :=
  est_lat est = None /\ est_lon est = None.

Definition lacks_center_pair (est : Element) : Prop :=
  center_lat_of est = None /\ center_lon_of est = None.

(** A coordinate that is present and equal to zero ([0] or [-0]). *)
Definition is_zero_coordinate (c : option float) : bool :=
  match c with
  | Some x => PrimFloat.is_zero x
  | None => false
  end.

(** An element whose latitude is zero: the resolved latitude is zero, or
    the direct latitude is zero and there is no centre latitude to fall
    back on.  Likewise for the longitude. *)
Definition zero_latitude (est : Element) : Prop :=
  is_zero_coordinate (resolved_lat est) = true
  \/ (is_zero_coordinate (est_lat est) = true /\ center_lat_of est = None).

Definition zero_longitude (est : Element) : Prop :=
  is_zero_coordinate (resolved_lon est) = true
  \/ (is_zero_coordinate (est_lon est) = true /\ center_lon_of est = None).

Record Doc := mkDoc {
  name : string;
  category : string;
  latitude : float;
  longitude : float;
  address : string;
  phone : option string;
  website : option string;
  source : string;
  coordinatesVerified : bool;
  coordinateSource : string;
  addedAt : Z
}.

(** The object literal [doc] of [insertToDatabase]. *)
Definition make_doc (est : Element) (lat lon : float) (date : Z) : Doc := {|
  name := js_or_else truthy_str (tag est "name")
            (js_or_else truthy_str (tag est "amenity") "Establishment");
  category := js_or_else truthy_str (tag est "amenity") "general";
  latitude := lat;
  longitude := lon;
  address := js_or_else truthy_str
               (js_or truthy_str (tag est "addr:full") (tag est "addr:street"))
               "Address not available";
  phone := js_or_null truthy_str (tag est "phone");
  website := js_or_null truthy_str (tag est "website");
  source := "OpenStreetMap";
  coordinatesVerified := true;
  coordinateSource := "OpenStreetMap";
  addedAt := date
|}.

(** The filter of the duplicate check. *)
Record Filter := mkFilter {
  f_latitude : float;
  f_longitude : float;
  f_name : string
}.

(** The filter [insertToDatabase] builds for an element with coordinates
    [lat], [lon]: the deduplication key. *)
Definition dedup_key (est : Element) (lat lon : float) : Filter :=
  mkFilter lat lon (name (make_doc est lat lon 0)).

(** ** Errors, collaborators and the world *)

(** The parts of a thrown value the program reads:
    [error.response?.status], [error.code] and [error.message]. *)
Record JsError := mkError {
  response_status : option Z;
  code : option string;
  message : string
}.

Definition TypeError (msg : string) : JsError := mkError None None msg.

(** A settled promise. *)
Inductive Outcome (A : Type) : Type :=
| Resolved (a : A)
| Rejected (e : JsError).
Arguments Resolved {A} a.
Arguments Rejected {A} e.

(** The value of [response.data.elements] when it is truthy: an array of
    elements, or something a [for...of] cannot iterate (an object, a
    number, [true]), whose [length] is then not [0]. *)
Inductive Elements : Type :=
| Arr (l : list Element)
| NotIterable.

(** [response.data]; the outer [None] is a missing body, the inner [None]
    a missing or falsy [elements] member. *)
Record Response := mkResponse {
  data : option (option Elements)
}.

(** The Overpass query, by the four values interpolated into its text. *)
Record Query := mkQuery {
  q_type : option string;
  q_radius : Z;
  q_lat : float;
  q_lon : float
}.

(** The [query] template of [fetchFromOSM]. *)
Definition overpass_query (location : Location) (type : option string)
    (radius : Z) : Query :=
  mkQuery type radius (loc_lat location) (loc_lon location).

Inductive LogMsg : Type :=
| Log_starting
| Log_cycle (cycle : Z) (province : string) (type : option string)
| Log_added (imported total : Z)
| Log_completed (cycle : Z)
| Log_error (msg : string)
| Log_rate_limited
| Log_timeout
| Log_fetch_error (msg : string)
| Log_recent_error (msg : string).

Inductive Event : Type :=
| Ev_log (m : LogMsg)
| Ev_sleep (ms : Z)
| Ev_post (q : Query)
| Ev_findOne (f : Filter)
| Ev_insertOne (d : Doc)
| Ev_find (limit : Z).

(** The sort document of a [find]: a field name and a direction, [1] for
    ascending and [-1] for descending. *)
Record Sort := mkSort {
  sort_field : string;
  sort_direction : Z
}.

(** What the process runs against: the configured delay, the remote API
    behind [axios.post] and the collection behind the MongoDB driver.
    axios rejects on a timeout, a network failure and (by its default
    [validateStatus]) on every status outside 2xx.  [find_sort_limit] is
    [collection.find(query).sort(sort).limit(limit).toArray()], where the
    query [None] is the empty query [{}]. *)
Class Environment := {
  IMPORT_DELAY : Z;
  Net : Type;
  Db : Type;
  axios_post : Query -> Net -> Outcome Response * Net;
  findOne : Filter -> Db -> Outcome (option Doc) * Db;
  insertOne : Doc -> Db -> Outcome unit * Db;
  find_sort_limit :
    option Filter -> Sort -> Z -> Db -> Outcome (list Doc) * Db
}.

(** ** [parseInt] and the [limit] query parameter

    A query parameter is a sequence of UTF-16 code units.  [parseInt]
    follows ECMAScript with no radix argument: leading white space, an
    optional sign, an optional [0x] prefix, then the longest run of digits;
    [None] is [NaN].  The result is the mathematical integer; JavaScript
    rounds it to binary64, which does not change whether it is zero. *)

Definition jsstring := list N.

Definition code_units (s : string) : jsstring :=
  map N_of_ascii (list_ascii_of_string s).

Definition is_whitespace (c : N) : bool :=
  existsb (N.eqb c)
    [9; 10; 11; 12; 13; 32; 160; 5760; 8232; 8233; 8239; 8287; 12288; 65279]%N
  || ((8192 <=? c) && (c <=? 8202))%N.

Fixpoint skip_whitespace (s : jsstring) : jsstring :=
  match s with
  | c :: rest => if is_whitespace c then skip_whitespace rest else s
  | [] => []
  end.

Definition digit_value (c : N) : option Z :=
  if ((48 <=? c) && (c <=? 57))%N then Some (Z.of_N c - 48)
  else if ((97 <=? c) && (c <=? 122))%N then Some (Z.of_N c - 97 + 10)
  else if ((65 <=? c) && (c <=? 90))%N then Some (Z.of_N c - 65 + 10)
  else None.

(** The value of the longest prefix of radix-[radix] digits, [None] when
    that prefix is empty. *)
Fixpoint parse_digits (radix : Z) (s : jsstring) (acc : option Z) : option Z :=
  match s with
  | c :: rest =>
      match digit_value c with
      | Some d =>
          if d <? radix
          then parse_digits radix rest (Some (radix * default 0 acc + d))
          else acc
      | None => acc
      end
  | [] => acc
  end.

Definition parseInt (input : jsstring) : option Z :=
  let s := skip_whitespace input in
  let '(sign, s) :=
    match s with
    | 45%N :: rest => (-1, rest)
    | 43%N :: rest => (1, rest)
    | _ => (1, s)
    end in
  let '(radix, s) :=
    match s with
    | 48%N :: 120%N :: rest => (16, rest)
    | 48%N :: 88%N :: rest => (16, rest)
    | _ => (10, s)
    end in
  match parse_digits radix s None with
  | Some n => Some (sign * n)
  | None => None
  end.

(** [ToString] of [req.query.limit], which is absent or a string. *)
Definition query_to_string (param : option jsstring) : jsstring :=
  match param with
  | Some s => s
  | None => code_units "undefined"
  end.

(** [parseInt(req.query.limit) || 100] *)
Definition recent_limit (param : option jsstring) : Z :=
  match parseInt (query_to_string param) with
  | Some n => if n =? 0 then 100 else n
  | None => 100
  end.

(** A [limit] parameter that is absent, or whose [parseInt] is falsy:
    [NaN] or zero. *)
Definition falsy_limit (param : option jsstring) : Prop :=
  param = None
  \/ parseInt (query_to_string param) = None
  \/ parseInt (query_to_string param) = Some 0.

(** The JSON bodies the service sends, as key/value lists in source order. *)
Inductive Json : Type :=
| J_bool (b : bool)
| J_num (n : Z)
| J_str (s : string)
| J_docs (l : list Doc).

Record HttpResponse := mkHttpResponse {
  status : Z;
  body : list (string * Json)
}.

Definition body_member (k : string) (r : HttpResponse) : option Json :=
  snd <$> List.find (fun kv => String.eqb (fst kv) k) (body r).

(** ** The monad of the program: state, trace and exceptions *)

Inductive Result (A : Type) : Type :=
| Ok (a : A)
| Throw (e : JsError).
Arguments Ok {A} a.
Arguments Throw {A} e.

Section Importer.
Context {env : Environment}.

(** The global [state], the two collaborators, the clock read by
    [new Date()] and the chronological trace of calls. *)
Record World := mkWorld {
  st : State;
  db : Db;
  net : Net;
  now : Z;
  trace : list Event
}.

Definition set_st (s : State) (w : World) : World :=
  mkWorld s (db w) (net w) (now w) (trace w).

Definition set_db (d : Db) (w : World) : World :=
  mkWorld (st w) d (net w) (now w) (trace w).

Definition set_net (n : Net) (w : World) : World :=
  mkWorld (st w) (db w) n (now w) (trace w).

Definition set_now (t : Z) (w : World) : World :=
  mkWorld (st w) (db w) (net w) t (trace w).

Definition emit (e : Event) (w : World) : World :=
  mkWorld (st w) (db w) (net w) (now w) (trace w ++ [e]).

(** A computation runs in a world and either returns or throws; what it
    changed before throwing stays changed. *)
Definition M (A : Type) : Type := World -> Result A * World.

#[global] Instance M_ret : MRet M := fun A a w => (Ok a, w).

#[global] Instance M_bind : MBind M := fun A B f m w =>
  match m w with
  | (Ok a, w') => f a w'
  | (Throw e, w') => (Throw e, w')
  end.

Definition throw {A} (e : JsError) : M A := fun w => (Throw e, w).

(** [try { body } catch (error) { handler }] *)
Definition try_catch {A} (body : M A) (handler : JsError -> M A) : M A :=
  fun w =>
    match body w with
    | (Ok a, w') => (Ok a, w')
    | (Throw e, w') => handler e w'
    end.

(** [await p] *)
Definition await {A} (o : Outcome A) : Result A :=
  match o with
  | Resolved a => Ok a
  | Rejected e => Throw e
  end.

Definition get_state : M State := fun w => (Ok (st w), w).

Definition modify_state (f : State -> State) : M unit :=
  fun w => (Ok tt, set_st (f (st w)) w).

Definition new_Date : M Z := fun w => (Ok (now w), w).

Definition log (m : LogMsg) : M unit := fun w => (Ok tt, emit (Ev_log m) w).

Definition sleep (ms : Z) : M unit :=
  fun w => (Ok tt, set_now (now w + ms) (emit (Ev_sleep ms) w)).

Definition post (q : Query) : M Response := fun w =>
  let '(o, n) := axios_post q (net w) in
  (await o, set_net n (emit (Ev_post q) w)).

Definition collection_findOne (f : Filter) : M (option Doc) := fun w =>
  let '(o, d) := findOne f (db w) in
  (await o, set_db d (emit (Ev_findOne f) w)).

Definition collection_insertOne (doc : Doc) : M unit := fun w =>
  let '(o, d) := insertOne doc (db w) in
  (await o, set_db d (emit (Ev_insertOne doc) w)).

Definition collection_find (query : option Filter) (sort : Sort) (limit : Z)
    : M (list Doc) := fun w =>
  let '(o, d) := find_sort_limit query sort limit (db w) in
  (await o, set_db d (emit (Ev_find limit) w)).

(** ** OSM functions *)

Definition fetchFromOSM (location : Location) (type : option string)
    (radius : Z) : M Elements :=
  let query := overpass_query location type radius in
  try_catch
    (response ← post query;
     match data response with
     | None => throw (TypeError "Cannot read properties of undefined")
     | Some (Some elements) => mret elements
     | Some None => mret (Arr [])
     end)
    (fun error =>
       (if bool_decide (response_status error = Some 429) then
          log Log_rate_limited;; sleep 60000
        else if bool_decide (code error = Some "ECONNABORTED") then
          log Log_timeout
        else
          log (Log_fetch_error (message error)));;
       mret (Arr [])).

(** The body of the [for...of] loop of [insertToDatabase], with the running
    count [inserted] passed through. *)
Definition insert_one_element (est : Element) (inserted : Z) : M Z :=
  try_catch
    (match coordinates est with
     | None => mret inserted
     | Some (lat, lon) =>
         date ← new_Date;
         let doc := make_doc est lat lon date in
         existing ← collection_findOne (mkFilter lat lon (name doc));
         match existing with
         | None => collection_insertOne doc;; mret (inserted + 1)
         | Some _ => mret inserted
         end
     end)
    (fun _ => mret inserted).

Fixpoint insert_loop (establishments : list Element) (inserted : Z) : M Z :=
  match establishments with
  | [] => mret inserted
  | est :: rest =>
      n ← insert_one_element est inserted;
      insert_loop rest n
  end.

Definition insertToDatabase (establishments : Elements) : M Z :=
  match establishments with
  | Arr [] => mret 0
  | Arr l => insert_loop l 0
  | NotIterable => throw (TypeError "establishments is not iterable")
  end.

(** ** Continuous import loop *)

(** One turn of the [while] loop. *)
Definition import_step : M unit :=
  s ← get_state;
  match js_index ALL_PROVINCES (currentProvinceIndex s) with
  | None => throw (TypeError "Cannot read properties of undefined")
  | Some province =>
      let type := js_index ESTABLISHMENT_TYPES (currentTypeIndex s) in
      log (Log_cycle (cycleCount s + 1) (loc_name province) type);;
      try_catch
        (elements ← fetchFromOSM province type (loc_radius province * 1000);
         imported ← insertToDatabase elements;
         modify_state (fun s => set_totalImported (totalImported s + imported) s);;
         date ← new_Date;
         modify_state (set_lastImportTime (Some date));;
         s ← get_state;
         (if imported >? 0 then log (Log_added imported (totalImported s))
          else mret tt);;
         modify_state advance;;
         (if completes_cycle s then log (Log_completed (cycleCount s + 1))
          else mret tt);;
         sleep IMPORT_DELAY)
        (fun error =>
           modify_state (fun s => set_errors (errors s + 1) s);;
           log (Log_error (message error));;
           sleep 10000)
  end.

(** [fuel] turns of the loop, or fewer when [isRunning] is found false. *)
Fixpoint import_loop (fuel : nat) : M unit :=
  match fuel with
  | O => mret tt
  | S n =>
      s ← get_state;
      if isRunning s then import_step;; import_loop n else mret tt
  end.

Definition runContinuousImport (fuel : nat) : M unit :=
  log Log_starting;; import_loop fuel.

(** ** [GET /api/recent] *)

Definition api_recent (limit_param : option jsstring) : M HttpResponse :=
  try_catch
    (let limit := recent_limit limit_param in
     establishments ← collection_find None (mkSort "addedAt" (-1)) limit;
     mret (mkHttpResponse 200
             [("success", J_bool true);
              ("count", J_num (js_length establishments));
              ("establishments", J_docs establishments)]))
    (fun error =>
       log (Log_recent_error (message error));;
       mret (mkHttpResponse 500
               [("success", J_bool false);
                ("error", J_str (message error))])).

End Importer.

Arguments World : clear implicits.
Arguments M : clear implicits.

(** The query of the work unit under the cursor, when the province index
    is in range. *)
Definition current_query (s : State) : option Query :=
  match js_index ALL_PROVINCES (currentProvinceIndex s) with
  | Some province =>
      Some (overpass_query province
              (js_index ESTABLISHMENT_TYPES (currentTypeIndex s))
              (loc_radius province * 1000))
  | None => None
  end.

(** A settled request whose result a [for...of] can walk: a rejection
    (turned into [[]] by [fetchFromOSM]) or any answer whose [elements] is
    not a truthy non-iterable. *)
Definition iterable_answer (o : Outcome Response) : Prop :=
  match o with
  | Resolved r => data r <> Some (Some NotIterable)
  | Rejected _ => True
  end.

(** ** A reference collection

    The three driver calls on an in-memory collection of importer
    documents: [findOne] with an equality filter returns the first match,
    [insertOne] appends, and [find(query).sort(sort).limit(n)] selects the
    documents matching the query, orders them as the sort document asks
    and keeps the first [|n|] of them ([limit(0)] keeps all, a negative
    limit counts as its absolute value).  The collection orders on
    [addedAt], descending for a negative direction and ascending
    otherwise; a sort on another field leaves the stored order. *)

Definition doc_matches (f : Filter) (d : Doc) : bool :=
  (latitude d =? f_latitude f)%float
  && (longitude d =? f_longitude f)%float
  && String.eqb (name d) (f_name f).

Definition newer_first : relation Doc := fun a b => addedAt b <= addedAt a.

#[global] Instance newer_first_dec : RelDecision newer_first :=
  fun a b => Z_le_dec (addedAt b) (addedAt a).

#[global] Instance newer_first_total : Total newer_first.
Proof. intros a b. unfold newer_first. lia. Qed.

#[global] Instance newer_first_trans : Transitive newer_first.
Proof. intros a b c. unfold newer_first. lia. Qed.

Definition older_first : relation Doc := fun a b => addedAt a <= addedAt b.

#[global] Instance older_first_dec : RelDecision older_first :=
  fun a b => Z_le_dec (addedAt a) (addedAt b).

Definition select_docs (query : option Filter) (docs : list Doc) : list Doc :=
  match query with
  | Some f => List.filter (doc_matches f) docs
  | None => docs
  end.

Definition sort_docs (sort : Sort) (docs : list Doc) : list Doc :=
  if String.eqb (sort_field sort) "addedAt" then
    if sort_direction sort <? 0 then merge_sort newer_first docs
    else merge_sort older_first docs
  else docs.

Definition sort_limit (query : option Filter) (sort : Sort) (limit : Z)
    (docs : list Doc) : list Doc :=
  let sorted := sort_docs sort (select_docs query docs) in
  if limit =? 0 then sorted else take (Z.abs_nat limit) sorted.

(** The number of stored documents with a given key. *)
Definition count_key (f : Filter) (docs : list Doc) : nat :=
  length (List.filter (doc_matches f) docs).

(** An environment over that collection: no network state, a remote that
    answers each query as [remote] says, and an [insertOne] that fails with
    [outage] when one is given (a store outage during insert). *)
Definition memory_env (delay : Z) (remote : Query -> Outcome Response)
    (outage : option JsError) : Environment := {|
  IMPORT_DELAY := delay;
  Net := unit;
  Db := list Doc;
  axios_post := fun q n => (remote q, n);
  findOne := fun f docs => (Resolved (List.find (doc_matches f) docs), docs);
  insertOne := fun d docs =>
    match outage with
    | Some e => (Rejected e, docs)
    | None => (Resolved tt, (docs ++ [d])%list)
    end;
  find_sort_limit := fun query sort n docs =>
    (Resolved (sort_limit query sort n docs), docs)
|}.

Definition start_world (e : Environment) (d : @Db e) (n : @Net e) : World e :=
  mkWorld (mkState true 0 0 0 0 (Some 0) 0 None) d n 0 [].

(** ** Sample inputs *)

Definition sample_cafe : Element :=
  mkElement (Some 14.5%float) (Some 121%float) None
    (Some {[ "name" := "Cafe Uno"; "amenity" := "cafe" ]}).

Definition sample_cafe_twin : Element :=
  mkElement None None (Some (mkCenter (Some 14.5%float) (Some 121%float)))
    (Some {[ "name" := "Cafe Uno"; "amenity" := "restaurant";
             "phone" := "+63 2 555 0100" ]}).

Definition sample_way : Element :=
  mkElement None None (Some (mkCenter (Some 10.3%float) (Some 123.9%float)))
    (Some {[ "amenity" := "school" ]}).

Definition sample_untagged : Element :=
  mkElement (Some 7.07%float) (Some 125.6%float) None None.

Definition sample_no_coordinates : Element :=
  mkElement None None None (Some {[ "name" := "Nowhere" ]}).

Definition sample_equator : Element :=
  mkElement (Some 0%float) (Some 121%float) None
    (Some {[ "name" := "Equator Kiosk" ]}).

Definition sample_null_island : Element :=
  mkElement None None (Some (mkCenter (Some 0%float) (Some 0%float)))
    (Some {[ "amenity" := "fuel" ]}).

Definition sample_province : Location :=
  mkLocation "Metro Manila" 14.5995 120.9842 30.

Definition answer (l : list Element) (q : Query) : Outcome Response :=
  Resolved (mkResponse (Some (Some (Arr l)))).

Definition sample_docs : list Doc :=
  [make_doc sample_cafe 14.5 121 1000;
   make_doc sample_untagged 7.07 125.6 3000;
   make_doc sample_way 10.3 123.9 2000].

Definition outage_error : JsError :=
  mkError None None "connection closed".

Definition rate_limit_error : JsError :=
  mkError (Some 429) None "Request failed with status code 429".

Definition reliable_env (l : list Element) : Environment :=
  memory_env 3000 (answer l) None.

Definition outage_env (l : list Element) : Environment :=
  memory_env 3000 (answer l) (Some outage_error).

Definition rate_limited_env : Environment :=
  memory_env 3000 (fun _ => Rejected rate_limit_error) None.

(** ** Reading the trace and the state *)

(** The elements of a fetch that pass the coordinate test. *)
Definition with_coordinates (l : list Element) : list Element :=
  List.filter (fun est => bool_decide (is_Some (coordinates est))) l.

Definition is_post (e : Event) : bool :=
  match e with Ev_post _ => true | _ => false end.

Definition is_findOne (e : Event) : bool :=
  match e with Ev_findOne _ => true | _ => false end.

Definition is_insertOne (e : Event) : bool :=
  match e with Ev_insertOne _ => true | _ => false end.


Definition count_events (p : Event -> bool) (t : list Event) : nat :=
  length (List.filter p t).

(** A run of store calls in which every [insertOne] comes right after a
    [findOne] on the key of the inserted document. *)
Inductive checked_inserts : list Event -> Prop :=
| checked_nil : checked_inserts []
| checked_find f t :
    checked_inserts t -> checked_inserts (Ev_findOne f :: t)
| checked_find_insert d t :
    checked_inserts t ->
    checked_inserts
      (Ev_findOne (mkFilter (latitude d) (longitude d) (name d))
         :: Ev_insertOne d :: t).

(** The cursor of a state: both indices and the cycle count. *)
Definition cursor_of (s : State) : Z * Z * Z :=
  (currentProvinceIndex s, currentTypeIndex s, cycleCount s).

(** An environment whose store is down: every driver call rejects. *)
Definition down_env (delay : Z) (remote : Query -> Outcome Response)
    (failure : JsError) : Environment := {|
  IMPORT_DELAY := delay;
  Net := unit;
  Db := unit;
  axios_post := fun q n => (remote q, n);
  findOne := fun _ d => (Rejected failure, d);
  insertOne := fun _ d => (Rejected failure, d);
  find_sort_limit := fun _ _ _ d => (Rejected failure, d)
|}.

(** ** Process configuration *)

(** The environment variables the service reads; [None] is unset. *)
Record ProcessEnv := mkProcessEnv {
  env_PORT : option string;
  env_MONGODB_URI : option string;
  env_DATABASE_URL : option string;
  env_RENDER_EXTERNAL_URL : option string;
  env_IMPORT_MODE : option string;
  env_NODE_ENV : option string
}.

(** [process.env.PORT || 3001]: the variable's text, or the number. *)
Definition PORT (p : ProcessEnv) : string + Z :=
  match env_PORT p with
  | Some v => if truthy_str v then inl v else inr 3001
  | None => inr 3001
  end.

(** [process.env.MONGODB_URI || process.env.DATABASE_URL] *)
Definition MONGODB_URI (p : ProcessEnv) : option string :=
  js_or truthy_str (env_MONGODB_URI p) (env_DATABASE_URL p).

Definition RENDER_EXTERNAL_URL (p : ProcessEnv) : option string :=
  env_RENDER_EXTERNAL_URL p.

(** [process.env.IMPORT_MODE || 'continuous'] *)
Definition IMPORT_MODE (p : ProcessEnv) : string :=
  js_or_else truthy_str (env_IMPORT_MODE p) "continuous".

Definition PING_INTERVAL_MINUTES : Z := 14.

(** Truthiness of a value that is [undefined] or a string. *)
Definition truthy_opt (v : option string) : bool :=
  match v with
  | Some s => truthy_str s
  | None => false
  end.

(** ** [GET /stats] *)

(** [state.startTime ? Math.floor((Date.now() - state.startTime) / 1000) : 0] *)
Definition uptime (s : State) (date_now : Z) : Z :=
  match startTime s with
  | Some t => if t =? 0 then 0 else (date_now - t) / 1000
  | None => 0
  end.

Record Stats := mkStats {
  stats_isRunning : bool;
  stats_mode : string;
  stats_currentProvince : option string;
  stats_currentType : option string;
  stats_currentProvinceIndex : Z;
  stats_currentTypeIndex : Z;
  stats_totalProvinces : Z;
  stats_totalTypes : Z;
  stats_totalImported : Z;
  stats_cycleCount : Z;
  stats_errors : Z;
  stats_uptime : Z;
  stats_lastImportTime : option Z;
  stats_keepAlive_enabled : bool;
  stats_keepAlive_pings : Z;
  stats_keepAlive_minutes : Z
}.

(** The body of the [/stats] answer, from the state, the ping counter and
    the clock. *)
Definition stats (p : ProcessEnv) (s : State) (pings date_now : Z) : Stats := {|
  stats_isRunning := isRunning s;
  stats_mode := IMPORT_MODE p;
  stats_currentProvince :=
    loc_name <$> js_index ALL_PROVINCES (currentProvinceIndex s);
  stats_currentType := js_index ESTABLISHMENT_TYPES (currentTypeIndex s);
  stats_currentProvinceIndex := currentProvinceIndex s;
  stats_currentTypeIndex := currentTypeIndex s;
  stats_totalProvinces := js_length ALL_PROVINCES;
  stats_totalTypes := js_length ESTABLISHMENT_TYPES;
  stats_totalImported := totalImported s;
  stats_cycleCount := cycleCount s;
  stats_errors := errors s;
  stats_uptime := uptime s date_now;
  stats_lastImportTime := lastImportTime s;
  stats_keepAlive_enabled := truthy_opt (RENDER_EXTERNAL_URL p);
  stats_keepAlive_pings := pings;
  stats_keepAlive_minutes := PING_INTERVAL_MINUTES
|}.

(** ** Keep-alive *)

Inductive Timer : Type :=
| Timeout_ping (ms : Z)
| Interval_ping (ms : Z).

Inductive KeepAliveMsg : Type :=
| Ka_disabled
| Ka_no_url
| Ka_set_url
| Ka_already_running
| Ka_starting (url : string) (minutes : Z)
| Ka_started
| Ka_ping_ok (ping duration imported : Z)
| Ka_ping_status (ping st : Z)
| Ka_ping_error (ping : Z) (msg : string).

(** The two globals of the keep-alive, the timers the process has set and
    what the keep-alive logged. *)
Record KeepAlive := mkKeepAlive {
  keepAliveInterval : option Timer;
  pingCount : Z;
  timers : list Timer;
  ka_log : list KeepAliveMsg
}.

Definition ka_say (m : KeepAliveMsg) (k : KeepAlive) : KeepAlive :=
  mkKeepAlive (keepAliveInterval k) (pingCount k) (timers k)
              (ka_log k ++ [m]).

Definition ka_schedule (t : Timer) (k : KeepAlive) : KeepAlive :=
  mkKeepAlive (keepAliveInterval k) (pingCount k) (timers k ++ [t])
              (ka_log k).

Definition set_keepAliveInterval (t : option Timer) (k : KeepAlive) : KeepAlive :=
  mkKeepAlive t (pingCount k) (timers k) (ka_log k).

Definition set_pingCount (n : Z) (k : KeepAlive) : KeepAlive :=
  mkKeepAlive (keepAliveInterval k) n (timers k) (ka_log k).

Definition startKeepAlive (p : ProcessEnv) (k : KeepAlive) : KeepAlive :=
  if negb (bool_decide (env_NODE_ENV p = Some "production")) then
    ka_say Ka_disabled k
  else if negb (truthy_opt (RENDER_EXTERNAL_URL p))
          || bool_decide (RENDER_EXTERNAL_URL p = Some "YOUR_RENDER_URL") then
    ka_say Ka_set_url (ka_say Ka_no_url k)
  else
    match keepAliveInterval k with
    | Some _ => ka_say Ka_already_running k
    | None =>
        let intervalMs := PING_INTERVAL_MINUTES * 60 * 1000 in
        let k := ka_say (Ka_starting (default "" (RENDER_EXTERNAL_URL p))
                           PING_INTERVAL_MINUTES) k in
        let k := ka_schedule (Timeout_ping 60000) k in
        let k := set_keepAliveInterval (Some (Interval_ping intervalMs))
                   (ka_schedule (Interval_ping intervalMs) k) in
        ka_say Ka_started k
    end.

(** [pingSelf], given how [axios.get] settled (with which status), the
    measured duration and the state it reads. *)
Definition pingSelf (answer : Outcome Z) (duration : Z) (s : State)
    (k : KeepAlive) : KeepAlive :=
  match answer with
  | Resolved response_st =>
      let k := set_pingCount (pingCount k + 1) k in
      if response_st =? 200 then
        ka_say (Ka_ping_ok (pingCount k) duration (totalImported s)) k
      else ka_say (Ka_ping_status (pingCount k) response_st) k
  | Rejected error => ka_say (Ka_ping_error (pingCount k) (message error)) k
  end.

(** A series of pings, each with its outcome and duration. *)
Definition ping_series (answers : list (Outcome Z * Z)) (s : State)
    (k : KeepAlive) : KeepAlive :=
  fold_left (fun k a => pingSelf (fst a) (snd a) s k) answers k.

Definition answered (a : Outcome Z * Z) : bool :=
  match fst a with Resolved _ => true | Rejected _ => false end.

(** ** Startup and shutdown *)

Definition set_isRunning (v : bool) (s : State) : State :=
  mkState v (currentProvinceIndex s) (currentTypeIndex s) (totalImported s)
          (cycleCount s) (startTime s) (errors s) (lastImportTime s).

Definition set_startTime (v : option Z) (s : State) : State :=
  mkState (isRunning s) (currentProvinceIndex s) (currentTypeIndex s)
          (totalImported s) (cycleCount s) v (errors s) (lastImportTime s).

(** What [main] and the signal handlers do outside the import loop. *)
Inductive ProcEvent : Type :=
| Pe_banner
| Pe_log_config (mode : string) (delay : Z) (uri_configured : bool)
| Pe_log_missing_uri
| Pe_connect (uri : string)
| Pe_log_connected
| Pe_listen (port : string + Z)
| Pe_log_fatal (msg : string)
| Pe_log_shutdown (signal : string)
| Pe_clearInterval (t : Timer)
| Pe_close (uri : string)
| Pe_exit (exit_code : Z).

Section Startup.
Context {env : Environment}.

(** The whole process: the world of the import loop, the keep-alive, the
    [mongoClient] global (by the URI it was made with; [None] is [null])
    and the startup and shutdown events. *)
Record Process := mkProcess {
  proc_world : World env;
  proc_keepalive : KeepAlive;
  mongoClient : option string;
  proc_events : list ProcEvent
}.

Definition proc_emit (evs : list ProcEvent) (pr : Process) : Process :=
  mkProcess (proc_world pr) (proc_keepalive pr) (mongoClient pr)
            (proc_events pr ++ evs).

Definition set_proc_world (w : World env) (pr : Process) : Process :=
  mkProcess w (proc_keepalive pr) (mongoClient pr) (proc_events pr).

Definition set_proc_keepalive (k : KeepAlive) (pr : Process) : Process :=
  mkProcess (proc_world pr) k (mongoClient pr) (proc_events pr).

Definition set_mongoClient (c : option string) (pr : Process) : Process :=
  mkProcess (proc_world pr) (proc_keepalive pr) c (proc_events pr).

(** [main], given how [mongoClient.connect()] settles and how many turns
    of the loop are observed; the [MongoClient] constructor and
    [app.listen] are taken to return.  The banner and the three
    configuration lines are one event.  The result is the exit code, or
    [None] while the process is alive. *)
Definition main (p : ProcessEnv) (connect : Outcome unit) (fuel : nat)
    (pr : Process) : option Z * Process :=
  let pr := proc_emit [Pe_banner;
                        Pe_log_config (IMPORT_MODE p) IMPORT_DELAY
                          (truthy_opt (MONGODB_URI p))] pr in
  match MONGODB_URI p with
  | None => (Some 1, proc_emit [Pe_log_missing_uri; Pe_exit 1] pr)
  | Some uri =>
      if negb (truthy_str uri) then
        (Some 1, proc_emit [Pe_log_missing_uri; Pe_exit 1] pr)
      else
        let pr := proc_emit [Pe_connect uri] (set_mongoClient (Some uri) pr) in
        match connect with
        | Rejected error =>
            (Some 1, proc_emit [Pe_log_fatal (message error); Pe_exit 1] pr)
        | Resolved _ =>
            let pr := proc_emit [Pe_log_connected; Pe_listen (PORT p)] pr in
            let pr := set_proc_keepalive
                        (startKeepAlive p (proc_keepalive pr)) pr in
            let w := proc_world pr in
            let w := set_st (set_isRunning true (st w)) w in
            let w := set_st (set_startTime (Some (now w)) (st w)) w in
            match runContinuousImport fuel w with
            | (Ok _, w') => (None, set_proc_world w' pr)
            | (Throw error, w') =>
                (Some 1,
                 proc_emit [Pe_log_fatal (message error); Pe_exit 1]
                   (set_proc_world w' pr))
            end
        end
  end.

(** The handler of [SIGINT] and [SIGTERM], given how
    [mongoClient.close()] settles.  It exits with a code, or throws when
    the close rejects. *)
Definition shutdown (signal : string) (close : Outcome unit) (pr : Process)
    : Result Z * Process :=
  let pr := proc_emit [Pe_log_shutdown signal] pr in
  let w := proc_world pr in
  let pr := set_proc_world (set_st (set_isRunning false (st w)) w) pr in
  let pr :=
    match keepAliveInterval (proc_keepalive pr) with
    | Some t => proc_emit [Pe_clearInterval t] pr
    | None => pr
    end in
  match mongoClient pr with
  | Some uri =>
      let pr := proc_emit [Pe_close uri] pr in
      match close with
      | Resolved _ => (Ok 0, proc_emit [Pe_exit 0] pr)
      | Rejected error => (Throw error, pr)
      end
  | None => (Ok 0, proc_emit [Pe_exit 0] pr)
  end.

End Startup.

Arguments Process : clear implicits.

Definition fresh_keepalive : KeepAlive := mkKeepAlive None 0 [] [].

(** The process as the module leaves it before [main] runs. *)
Definition fresh_process (e : Environment) (d : @Db e) (n : @Net e)
    (clock : Z) : Process e :=
  mkProcess (mkWorld initial_state d n clock []) fresh_keepalive None [].

(** ** More sample inputs *)

Definition production_env : ProcessEnv :=
  mkProcessEnv None (Some "mongodb://db.example.com/localproductfinder") None
    (Some "https://importer.example.com") None (Some "production").

Definition database_url_env : ProcessEnv :=
  mkProcessEnv (Some "8080") (Some "")
    (Some "mongodb://fallback.example.com/db") None None None.

Definition unconfigured_env : ProcessEnv :=
  mkProcessEnv None None None None None None.

Definition not_iterable_env : Environment :=
  memory_env 3000
    (fun _ => Resolved (mkResponse (Some (Some NotIterable)))) None.


(** ** Keys of stored documents *)

(** The key under which a stored document is found again. *)
Definition key_of (d : Doc) : Filter :=
  mkFilter (latitude d) (longitude d) (name d).

(** No stored document repeats a key: the existence check made with a
    document's key finds nothing among the documents stored before it. *)
Definition distinct_keys (docs : list Doc) : Prop :=
  forall earlier d later,
    docs = (earlier ++ d :: later)%list ->
    count_key (key_of d) earlier = 0%nat.

(** ** Decimal numerals *)



(** * Properties *)

(** ** The cursor *)

Section Cursor.
Variables nprov ntype : Z.

Lemma advance_in_eq s :
  advance_in nprov ntype s =
  if ntype <=? currentTypeIndex s + 1 then
    if nprov <=? currentProvinceIndex s + 1 then
      set_cycleCount (cycleCount s + 1)
        (set_currentProvinceIndex 0 (set_currentTypeIndex 0 s))
    else
      set_currentProvinceIndex (currentProvinceIndex s + 1)
        (set_currentTypeIndex 0 s)
  else set_currentTypeIndex (currentTypeIndex s + 1) s.
Proof.
  unfold advance_in. cbn. rewrite !Z.geb_leb.
  destruct (ntype <=? currentTypeIndex s + 1); [cbn | reflexivity].
  destruct (nprov <=? currentProvinceIndex s + 1); reflexivity.
Qed.

Lemma advance_in_step s : advance_step nprov ntype s (advance_in nprov ntype s).
Proof.
  rewrite advance_in_eq.
  destruct (Z.leb_spec ntype (currentTypeIndex s + 1)) as [Ht|Ht].
  - destruct (Z.leb_spec nprov (currentProvinceIndex s + 1)) as [Hp|Hp].
    + now apply step_next_cycle.
    + now apply step_next_province.
  - now apply step_next_type.
Qed.

Lemma advance_step_fun s s' :
  advance_step nprov ntype s s' -> s' = advance_in nprov ntype s.
Proof.
  rewrite advance_in_eq.
  destruct 1 as [Ht|Ht Hp|Ht Hp].
  - destruct (Z.leb_spec ntype (currentTypeIndex s + 1)); [lia | reflexivity].
  - destruct (Z.leb_spec ntype (currentTypeIndex s + 1)); [| lia].
    destruct (Z.leb_spec nprov (currentProvinceIndex s + 1)); [lia | reflexivity].
  - destruct (Z.leb_spec ntype (currentTypeIndex s + 1)); [| lia].
    destruct (Z.leb_spec nprov (currentProvinceIndex s + 1)); [reflexivity | lia].
Qed.

Lemma advance_in_ok s :
  cursor_ok_in nprov ntype s ->
  cursor_ok_in nprov ntype (advance_in nprov ntype s)
  /\ steps_done nprov ntype (advance_in nprov ntype s)
     = steps_done nprov ntype s + 1.
Proof.
  unfold cursor_ok_in, steps_done.
  intros [Hp Ht].
  destruct (advance_in_step s) as [H1|H1 H2|H1 H2]; cbn; split; try lia.
  assert (currentTypeIndex s = ntype - 1) as -> by lia.
  assert (currentProvinceIndex s = nprov - 1) as -> by lia.
  lia.
Qed.

Lemma iter_advance_in_ok (n : nat) s :
  cursor_ok_in nprov ntype s ->
  cursor_ok_in nprov ntype (Nat.iter n (advance_in nprov ntype) s)
  /\ steps_done nprov ntype (Nat.iter n (advance_in nprov ntype) s)
     = steps_done nprov ntype s + Z.of_nat n.
Proof.
  intros Hs. induction n as [|n [IH1 IH2]].
  - cbn. split; [assumption | lia].
  - rewrite Nat.iter_succ. destruct (advance_in_ok _ IH1) as [H1 H2].
    split; [assumption | lia].
Qed.

Lemma steps_done_inj s1 s2 :
  cursor_ok_in nprov ntype s1 -> cursor_ok_in nprov ntype s2 ->
  steps_done nprov ntype s1 = steps_done nprov ntype s2 ->
  currentProvinceIndex s1 = currentProvinceIndex s2
  /\ currentTypeIndex s1 = currentTypeIndex s2
  /\ cycleCount s1 = cycleCount s2.
Proof.
  unfold cursor_ok_in, steps_done. intros [Hp1 Ht1] [Hp2 Ht2] H.
  destruct (Z.div_mod_unique ntype
              (cycleCount s1 * nprov + currentProvinceIndex s1)
              (cycleCount s2 * nprov + currentProvinceIndex s2)
              (currentTypeIndex s1) (currentTypeIndex s2)) as [H' Ht];
    [lia | lia | lia |].
  destruct (Z.div_mod_unique nprov (cycleCount s1) (cycleCount s2)
              (currentProvinceIndex s1) (currentProvinceIndex s2)) as [Hc Hp];
    [lia | lia | lia |].
  auto.
Qed.

(** The step touches the two indices and the cycle count only, and reads
    nothing else. *)
Lemma advance_in_frame s :
  totalImported (advance_in nprov ntype s) = totalImported s
  /\ errors (advance_in nprov ntype s) = errors s
  /\ isRunning (advance_in nprov ntype s) = isRunning s
  /\ lastImportTime (advance_in nprov ntype s) = lastImportTime s.
Proof.
  rewrite advance_in_eq.
  destruct (_ <=? _); [destruct (_ <=? _) |]; repeat split; reflexivity.
Qed.

Lemma advance_in_cursor_ext s1 s2 :
  currentProvinceIndex s1 = currentProvinceIndex s2 ->
  currentTypeIndex s1 = currentTypeIndex s2 ->
  cycleCount s1 = cycleCount s2 ->
  currentProvinceIndex (advance_in nprov ntype s1)
  = currentProvinceIndex (advance_in nprov ntype s2)
  /\ currentTypeIndex (advance_in nprov ntype s1)
     = currentTypeIndex (advance_in nprov ntype s2)
  /\ cycleCount (advance_in nprov ntype s1)
     = cycleCount (advance_in nprov ntype s2).
Proof.
  intros Hp Ht Hc. rewrite !advance_in_eq, Hp, Ht.
  destruct (_ <=? _); [destruct (_ <=? _) |]; cbn; repeat split; congruence.
Qed.

End Cursor.

Lemma catalog_size :
  js_length ALL_PROVINCES = 20 /\ js_length ESTABLISHMENT_TYPES = 46.
Proof. split; reflexivity. Qed.

Lemma cursor_ok_initial : cursor_ok initial_state.
Proof. repeat split; (reflexivity || discriminate). Defined.

(** A full pass over any non-empty catalog: [nprov * ntype] steps bring the
    two indices back and count one cycle. *)
Lemma advance_in_full_cycle (np nt : nat) (s : State) :
  cursor_ok_in (Z.of_nat np) (Z.of_nat nt) s ->
  let s' := Nat.iter (np * nt) (advance_in (Z.of_nat np) (Z.of_nat nt)) s in
  currentProvinceIndex s' = currentProvinceIndex s
  /\ currentTypeIndex s' = currentTypeIndex s
  /\ cycleCount s' = cycleCount s + 1.
Proof.
  intros Hs s'.
  destruct (iter_advance_in_ok (Z.of_nat np) (Z.of_nat nt) (np * nt) s Hs)
    as [Hok Hsteps].
  fold s' in Hok, Hsteps.
  pose (s1 := set_cycleCount (cycleCount s + 1) s).
  assert (Hok1 : cursor_ok_in (Z.of_nat np) (Z.of_nat nt) s1) by exact Hs.
  assert (Heq : steps_done (Z.of_nat np) (Z.of_nat nt) s'
                = steps_done (Z.of_nat np) (Z.of_nat nt) s1).
  { rewrite Hsteps, Nat2Z.inj_mul. unfold steps_done, s1.
    cbn [cycleCount currentProvinceIndex currentTypeIndex set_cycleCount].
    lia. }
  destruct (steps_done_inj _ _ _ _ Hok Hok1 Heq) as (Hp & Ht & Hc).
  auto.
Qed.

(** C1 (as amended): from every in-range cursor, |Locations| x |Categories|
    applications of the cursor step, which is 20 x 46 = 920 in this catalog,
    return to the same (currentProvinceIndex, currentTypeIndex) and raise
    cycleCount by exactly 1. *)
Theorem advance_full_cycle (s : State) :
  cursor_ok s ->
  let s' :=
    Nat.iter (length ALL_PROVINCES * length ESTABLISHMENT_TYPES) advance s in
  (length ALL_PROVINCES * length ESTABLISHMENT_TYPES = 20 * 46)%nat
  /\ currentProvinceIndex s' = currentProvinceIndex s
  /\ currentTypeIndex s' = currentTypeIndex s
  /\ cycleCount s' = cycleCount s + 1.
Proof.
  intros Hs. split; [reflexivity |].
  exact (advance_in_full_cycle (length ALL_PROVINCES)
           (length ESTABLISHMENT_TYPES) s Hs).
Qed.

Lemma advance_full_cycle_witness :
  cursor_ok initial_state
  /\ cycleCount
       (Nat.iter (length ALL_PROVINCES * length ESTABLISHMENT_TYPES)
          advance initial_state) = 1.
Proof.
  split; [exact cursor_ok_initial |].
  exact (proj2 (proj2 (proj2
           (advance_full_cycle initial_state cursor_ok_initial)))).
Defined.

(** C1 as stated fails on its count: the catalog has 20 x 46 work units,
    not 19 x 45, and 19 x 45 steps from the start leave the cursor at
    (18, 27) in cycle 0. *)
Lemma advance_19_by_45_not_a_cycle :
  (length ALL_PROVINCES * length ESTABLISHMENT_TYPES)%nat <> (19 * 45)%nat
  /\ (let s' := Nat.iter (19 * 45) advance initial_state in
      currentProvinceIndex s' = 18 /\ currentTypeIndex s' = 27
      /\ cycleCount s' = 0)
  /\ ~ (forall s, cursor_ok s ->
          let s' := Nat.iter (19 * 45) advance s in
          currentProvinceIndex s' = currentProvinceIndex s
          /\ currentTypeIndex s' = currentTypeIndex s
          /\ cycleCount s' = cycleCount s + 1).
Proof.
  split; [vm_compute; discriminate |].
  split; [vm_compute; auto |].
  intros H. destruct (H initial_state cursor_ok_initial) as (Hp & _).
  vm_compute in Hp. discriminate.
Qed.

(** C5: the cursor step keeps 0 <= currentProvinceIndex < |Locations| and
    0 <= currentTypeIndex < |Categories|, leaves cycleCount unchanged or one
    higher (so never lower), and is a total, deterministic step: the
    successor of a state exists and is unique. *)
Theorem advance_preserves_cursor (s : State) :
  cursor_ok s ->
  cursor_ok (advance s)
  /\ (cycleCount (advance s) = cycleCount s
      \/ cycleCount (advance s) = cycleCount s + 1)
  /\ cycleCount s <= cycleCount (advance s)
  /\ (forall s',
        advance_step (js_length ALL_PROVINCES)
          (js_length ESTABLISHMENT_TYPES) s s'
        <-> s' = advance s).
Proof.
  intros Hs.
  destruct (advance_in_ok _ _ s Hs) as [Hok _].
  split; [exact Hok |].
  assert (Hc : cycleCount (advance s) = cycleCount s
               \/ cycleCount (advance s) = cycleCount s + 1).
  { unfold advance.
    destruct (advance_in_step (js_length ALL_PROVINCES)
                (js_length ESTABLISHMENT_TYPES) s); cbn; auto. }
  split; [exact Hc |]. split; [lia |].
  intros s'. split.
  - apply advance_step_fun.
  - intros ->. apply advance_in_step.
Qed.

Lemma advance_preserves_cursor_witness :
  cursor_ok initial_state /\ cursor_ok (advance initial_state).
Proof.
  split; [exact cursor_ok_initial |].
  exact (proj1 (advance_preserves_cursor initial_state cursor_ok_initial)).
Defined.

(** ** The fetch and insert pipeline, in any environment *)

Section Pipeline.
Context {env : Environment}.

Ltac run_M :=
  unfold mbind, M_bind, mret, M_ret, try_catch, throw, get_state,
    modify_state, new_Date, log, sleep, post, collection_findOne,
    collection_insertOne, collection_find, await in *.

Lemma fetchFromOSM_rejected location type radius (w : World env) e n :
  axios_post (overpass_query location type radius) (net w) = (Rejected e, n) ->
  fetchFromOSM location type radius w =
  let w1 := set_net n (emit (Ev_post (overpass_query location type radius)) w) in
  (Ok (Arr []),
   if bool_decide (response_status e = Some 429) then
     set_now (now w + 60000)
       (emit (Ev_sleep 60000) (emit (Ev_log Log_rate_limited) w1))
   else if bool_decide (code e = Some "ECONNABORTED") then
     emit (Ev_log Log_timeout) w1
   else emit (Ev_log (Log_fetch_error (message e))) w1).
Proof.
  intros H. unfold fetchFromOSM, overpass_query in *. run_M. rewrite H. cbn.
  repeat case_bool_decide; reflexivity.
Qed.

Lemma fetchFromOSM_returns location type radius (w : World env) :
  exists els w',
    fetchFromOSM location type radius w = (Ok els, w')
    /\ st w' = st w /\ db w' = db w.
Proof.
  destruct (axios_post (overpass_query location type radius) (net w))
    as [[r|e] n] eqn:H.
  - unfold fetchFromOSM, overpass_query in *. run_M. rewrite H. cbn.
    destruct (data r) as [[els|]|]; cbn; eauto.
  - rewrite (fetchFromOSM_rejected _ _ _ _ _ _ H). cbn.
    eexists _, _. split; [reflexivity |].
    repeat case_bool_decide; auto.
Qed.

Lemma insert_one_element_discarded est inserted (w : World env) :
  coordinates est = None -> insert_one_element est inserted w = (Ok inserted, w).
Proof. intros H. unfold insert_one_element. run_M. now rewrite H. Qed.

Lemma insert_one_element_run est inserted (w : World env) lat lon :
  coordinates est = Some (lat, lon) ->
  let doc := make_doc est lat lon (now w) in
  let f := mkFilter lat lon (name doc) in
  insert_one_element est inserted w =
  match findOne f (db w) with
  | (Resolved None, d1) =>
      let w1 := set_db d1 (emit (Ev_findOne f) w) in
      match insertOne doc d1 with
      | (Resolved _, d2) =>
          (Ok (inserted + 1), set_db d2 (emit (Ev_insertOne doc) w1))
      | (Rejected _, d2) =>
          (Ok inserted, set_db d2 (emit (Ev_insertOne doc) w1))
      end
  | (_, d1) => (Ok inserted, set_db d1 (emit (Ev_findOne f) w))
  end.
Proof.
  intros H. cbv zeta. unfold insert_one_element. run_M. rewrite H.
  destruct (findOne _ (db w)) as [[[existing|]|e] d1]; try reflexivity.
  cbn [db set_db].
  destruct (insertOne _ d1) as [[[]|e] d2]; reflexivity.
Qed.

Lemma insert_one_element_returns est inserted (w : World env) :
  exists n w',
    insert_one_element est inserted w = (Ok n, w')
    /\ st w' = st w /\ now w' = now w /\ net w' = net w
    /\ inserted <= n <= inserted + 1.
Proof.
  destruct (coordinates est) as [[lat lon]|] eqn:H.
  - rewrite (insert_one_element_run _ _ _ _ _ H). cbn zeta.
    destruct (findOne _ (db w)) as [[[existing|]|e] d1];
      try (eexists _, _; split; [reflexivity | cbn; repeat split; lia]).
    destruct (insertOne _ d1) as [[[]|e] d2];
      eexists _, _; (split; [reflexivity | cbn; repeat split; lia]).
  - rewrite (insert_one_element_discarded _ _ _ H).
    eexists _, _; split; [reflexivity | repeat split; lia].
Qed.

Lemma insert_loop_returns ests : forall inserted (w : World env),
  exists n w',
    insert_loop ests inserted w = (Ok n, w')
    /\ st w' = st w /\ now w' = now w /\ net w' = net w
    /\ inserted <= n <= inserted + js_length ests.
Proof.
  unfold js_length.
  induction ests as [|est rest IH]; intros inserted w.
  - exists inserted, w. cbn. repeat split; lia.
  - destruct (insert_one_element_returns est inserted w)
      as (n1 & w1 & H1 & Hst1 & Hnow1 & Hnet1 & Hn1).
    destruct (IH n1 w1) as (n2 & w2 & H2 & Hst2 & Hnow2 & Hnet2 & Hn2).
    exists n2, w2. cbn [insert_loop]. unfold mbind, M_bind.
    rewrite H1, H2. cbn [length]. repeat split; try congruence; lia.
Qed.

Lemma insertToDatabase_array l (w : World env) :
  exists n w',
    insertToDatabase (Arr l) w = (Ok n, w')
    /\ st w' = st w /\ now w' = now w /\ net w' = net w
    /\ 0 <= n <= js_length l.
Proof.
  destruct l as [|est rest].
  - exists 0, w. cbn. unfold js_length. cbn. repeat split; lia.
  - apply (insert_loop_returns (est :: rest) 0 w).
Qed.

Lemma js_index_in_range {A} (l : list A) (i : Z) :
  0 <= i < js_length l -> exists x, js_index l i = Some x.
Proof.
  unfold js_index, js_length. intros H.
  destruct (Z.ltb_spec i 0); [lia |].
  apply lookup_lt_is_Some_2. lia.
Qed.

(** One turn of the loop from an in-range cursor always returns: either the
    work unit was imported and the cursor advanced, or an exception reached
    the loop's handler and one error was counted, the cursor staying put. *)
Lemma import_step_returns (w : World env) :
  cursor_ok (st w) ->
  exists w',
    import_step w = (Ok tt, w')
    /\ ((exists imported date,
           0 <= imported
           /\ st w' = advance (set_lastImportTime (Some date)
                        (set_totalImported (totalImported (st w) + imported)
                           (st w))))
        \/ st w' = set_errors (errors (st w) + 1) (st w)).
Proof.
  intros [Hp Ht].
  destruct (js_index_in_range ALL_PROVINCES _ Hp) as [province Hprov].
  unfold import_step. run_M. cbv beta. rewrite Hprov.
  match goal with
  | |- context [fetchFromOSM ?l ?t ?r ?w0] =>
      destruct (fetchFromOSM_returns l t r w0) as (els & w2 & Hf & Hst2 & _);
      rewrite Hf
  end.
  destruct els as [l|].
  - destruct (insertToDatabase_array l w2) as (n & w3 & Hi & Hst3 & _ & _ & Hn).
    rewrite Hi.
    destruct (n >? 0), (completes_cycle _);
      (eexists; split; [reflexivity |]);
      left; exists n, (now w3); (split; [lia |]);
      cbn; now rewrite Hst3, Hst2.
  - cbn. eexists. split; [reflexivity |]. right. cbn. now rewrite Hst2.
Qed.

(** The loop keeps the cursor invariant and never lowers cycleCount. *)
Lemma import_step_preserves_cursor (w : World env) :
  cursor_ok (st w) ->
  exists w',
    import_step w = (Ok tt, w')
    /\ cursor_ok (st w')
    /\ cycleCount (st w) <= cycleCount (st w').
Proof.
  intros Hok.
  destruct (import_step_returns w Hok)
    as (w' & Hstep & [(n & date & _ & Hst) | Hst]);
    exists w'; (split; [exact Hstep |]); rewrite Hst.
  - set (s1 := set_lastImportTime _ _).
    assert (Hok1 : cursor_ok s1) by exact Hok.
    destruct (advance_in_ok _ _ s1 Hok1) as [Hok2 _].
    split; [exact Hok2 |].
    change (cycleCount (st w)) with (cycleCount s1). unfold advance.
    destruct (advance_in_step (js_length ALL_PROVINCES)
                (js_length ESTABLISHMENT_TYPES) s1); cbn; lia.
  - split; [exact Hok | cbn; lia].
Qed.

Lemma import_loop_preserves_cursor (fuel : nat) : forall w : World env,
  cursor_ok (st w) ->
  exists w',
    import_loop fuel w = (Ok tt, w')
    /\ cursor_ok (st w')
    /\ cycleCount (st w) <= cycleCount (st w').
Proof.
  induction fuel as [|fuel IH]; intros w Hok.
  - exists w. cbn. split; [reflexivity |]. split; [exact Hok | lia].
  - cbn [import_loop]. run_M. cbv beta.
    destruct (isRunning (st w)).
    + destruct (import_step_preserves_cursor w Hok) as (w1 & Hstep & Hok1 & Hc1).
      destruct (IH w1 Hok1) as (w2 & Hloop & Hok2 & Hc2).
      exists w2. rewrite Hstep, Hloop. split; [reflexivity |].
      split; [exact Hok2 | lia].
    + exists w. split; [reflexivity |]. split; [exact Hok | lia].
Qed.

Lemma import_loop_continues (w w' : World env) (fuel : nat) :
  import_step w = (Ok tt, w') ->
  isRunning (st w) = true ->
  import_loop (S fuel) w = import_loop fuel w'.
Proof.
  intros Hstep Hrun. cbn [import_loop]. run_M. cbv beta.
  now rewrite Hrun, Hstep.
Qed.

Lemma fetchFromOSM_iterable location type radius (w : World env) :
  iterable_answer
    (fst (axios_post (overpass_query location type radius) (net w))) ->
  exists l w',
    fetchFromOSM location type radius w = (Ok (Arr l), w') /\ st w' = st w.
Proof.
  destruct (axios_post (overpass_query location type radius) (net w))
    as [[r|e] n] eqn:H; cbn; intros Hit.
  - unfold fetchFromOSM. run_M. rewrite H. cbn.
    destruct (data r) as [[[l|]|]|]; cbn; try contradiction; eauto.
  - rewrite (fetchFromOSM_rejected _ _ _ _ _ _ H). cbn.
    eexists _, _. split; [reflexivity |].
    repeat case_bool_decide; reflexivity.
Qed.

(** A turn of the loop, given what its fetch and its insert pass return. *)
Lemma import_step_run (w : World env) province l w2 n w3 :
  js_index ALL_PROVINCES (currentProvinceIndex (st w)) = Some province ->
  fetchFromOSM province
    (js_index ESTABLISHMENT_TYPES (currentTypeIndex (st w)))
    (loc_radius province * 1000)
    (emit (Ev_log (Log_cycle (cycleCount (st w) + 1) (loc_name province)
                     (js_index ESTABLISHMENT_TYPES (currentTypeIndex (st w)))))
       w)
  = (Ok (Arr l), w2) ->
  insertToDatabase (Arr l) w2 = (Ok n, w3) ->
  exists w',
    import_step w = (Ok tt, w')
    /\ st w' = advance (set_lastImportTime (Some (now w3))
                 (set_totalImported (totalImported (st w3) + n) (st w3)))
    /\ db w' = db w3.
Proof.
  intros Hprov Hf Hi.
  unfold import_step. run_M. cbv beta. rewrite Hprov, Hf, Hi.
  destruct (n >? 0), (completes_cycle _);
    (eexists; split; [reflexivity |]); split; reflexivity.
Qed.

(** Whatever the store does, a turn of the loop whose fetch is iterable
    counts no error, adds the number of inserted records to totalImported
    and advances the cursor. *)
Lemma import_step_imported (w : World env) (q : Query) :
  cursor_ok (st w) ->
  current_query (st w) = Some q ->
  iterable_answer (fst (axios_post q (net w))) ->
  exists imported w',
    import_step w = (Ok tt, w')
    /\ errors (st w') = errors (st w)
    /\ 0 <= imported
    /\ totalImported (st w') = totalImported (st w) + imported
    /\ currentProvinceIndex (st w') = currentProvinceIndex (advance (st w))
    /\ currentTypeIndex (st w') = currentTypeIndex (advance (st w))
    /\ cycleCount (st w') = cycleCount (advance (st w)).
Proof.
  intros _ Hq Hit. unfold current_query in Hq.
  destruct (js_index ALL_PROVINCES _) as [province|] eqn:Hprov; [| discriminate].
  injection Hq as <-.
  destruct (fetchFromOSM_iterable province
              (js_index ESTABLISHMENT_TYPES (currentTypeIndex (st w)))
              (loc_radius province * 1000)
              (emit (Ev_log (Log_cycle (cycleCount (st w) + 1)
                               (loc_name province)
                               (js_index ESTABLISHMENT_TYPES
                                  (currentTypeIndex (st w))))) w) Hit)
    as (l & w2 & Hf & Hst2).
  destruct (insertToDatabase_array l w2) as (n & w3 & Hi & Hst3 & _ & _ & Hn).
  destruct (import_step_run w province l w2 n w3 Hprov Hf Hi)
    as (w' & Hstep & Hst & _).
  exists n, w'. split; [exact Hstep |].
  rewrite Hst, Hst3, Hst2. cbn [st emit]. unfold advance.
  destruct (advance_in_frame (js_length ALL_PROVINCES)
              (js_length ESTABLISHMENT_TYPES)
              (set_lastImportTime (Some (now w3))
                 (set_totalImported (totalImported (st w) + n) (st w))))
    as (Htot & Herr & _).
  rewrite Htot, Herr.
  repeat split; try reflexivity; try lia; now apply advance_in_cursor_ext.
Qed.

(** C4: when the request to the remote API fails in any way (axios rejects
    on a timeout, a network error, a rate-limit answer and every other
    non-2xx status), [fetchFromOSM] returns the empty sequence and throws
    nothing, leaving the importer state and the store untouched; on status
    429 it first logs and sleeps 60000 ms, on any other failure it does not
    sleep. *)
Theorem fetchFromOSM_remote_failure location type radius (w : World env) e n :
  axios_post (overpass_query location type radius) (net w) = (Rejected e, n) ->
  exists w',
    fetchFromOSM location type radius w = (Ok (Arr []), w')
    /\ st w' = st w /\ db w' = db w
    /\ (response_status e = Some 429 ->
        trace w' = (trace w ++ [Ev_post (overpass_query location type radius);
                               Ev_log Log_rate_limited; Ev_sleep 60000])%list
        /\ now w' = now w + 60000)
    /\ (response_status e <> Some 429 ->
        now w' = now w
        /\ exists m,
             trace w' = (trace w ++ [Ev_post (overpass_query location type radius);
                                    Ev_log m])%list).
Proof.
  intros H. rewrite (fetchFromOSM_rejected _ _ _ _ _ _ H). cbv zeta.
  eexists. split; [reflexivity |].
  case_bool_decide as H429.
  - cbn. rewrite <- !app_assoc. repeat split; congruence.
  - assert (Hother : forall m,
              trace (emit (Ev_log m)
                       (set_net n
                          (emit (Ev_post (overpass_query location type radius))
                             w)))
              = (trace w ++ [Ev_post (overpass_query location type radius);
                             Ev_log m])%list).
    { intros m. cbn. now rewrite <- app_assoc. }
    case_bool_decide;
      (repeat split; first [congruence | eauto]).
Qed.

(** C6: an element with neither a direct coordinate pair nor a centre pair
    is dropped before any store call: processing it returns the running
    count unchanged in an unchanged world (same store, same trace, same
    counters), and a fetch made of it alone imports 0. *)
Theorem element_without_coordinates_discarded est rest inserted (w : World env) :
  lacks_direct_pair est ->
  lacks_center_pair est ->
  insert_one_element est inserted w = (Ok inserted, w)
  /\ insert_loop (est :: rest) inserted w = insert_loop rest inserted w
  /\ insertToDatabase (Arr [est]) w = (Ok 0, w).
Proof.
  intros [Hlat Hlon] [Hclat Hclon].
  assert (Hnone : coordinates est = None).
  { unfold coordinates, resolved_lat. now rewrite Hlat, Hclat. }
  assert (H1 : forall n, insert_one_element est n w = (Ok n, w))
    by (intros; now apply insert_one_element_discarded).
  split; [apply H1 |].
  split; cbn [insertToDatabase insert_loop]; unfold mbind, M_bind;
    now rewrite H1.
Qed.

(** A zero that is present, with nothing else to fall back on, leaves the
    resolved value falsy. *)
Lemma zero_coordinate_falsy (direct center : option float) :
  is_zero_coordinate (js_or truthy_num direct center) = true
  \/ (is_zero_coordinate direct = true /\ center = None) ->
  match js_or truthy_num direct center with
  | Some x => truthy_num x = false
  | None => True
  end.
Proof.
  unfold is_zero_coordinate, truthy_num.
  intros [Hz | [Hd ->]].
  - destruct (js_or _ direct center) as [x|]; [| exact I]. now rewrite Hz.
  - destruct direct as [x|]; [| discriminate]. cbn [js_or]. now rewrite Hd.
Qed.

(** C9: an element whose resolved latitude or longitude is zero (or whose
    direct value is zero with no centre value behind it) fails the presence
    test [!lat || !lon] just as an element without coordinates does, and is
    dropped before any store call: the world and the running count are
    unchanged, and a fetch made of it alone imports 0. *)
Theorem element_with_zero_coordinate_discarded est rest inserted (w : World env) :
  zero_latitude est \/ zero_longitude est ->
  coordinates est = None
  /\ insert_one_element est inserted w = (Ok inserted, w)
  /\ insert_loop (est :: rest) inserted w = insert_loop rest inserted w
  /\ insertToDatabase (Arr [est]) w = (Ok 0, w).
Proof.
  intros Hz.
  assert (Hnone : coordinates est = None).
  { unfold coordinates.
    destruct Hz as [Hz|Hz]; apply zero_coordinate_falsy in Hz;
      fold (resolved_lat est) in *; fold (resolved_lon est) in *.
    - destruct (resolved_lat est) as [la|]; [| reflexivity].
      destruct (resolved_lon est) as [lo|]; [| reflexivity].
      now rewrite Hz.
    - destruct (resolved_lat est) as [la|]; [| reflexivity].
      destruct (resolved_lon est) as [lo|]; [| reflexivity].
      rewrite Hz. cbn. now rewrite orb_true_r. }
  assert (H1 : forall n, insert_one_element est n w = (Ok n, w))
    by (intros; now apply insert_one_element_discarded).
  split; [exact Hnone |]. split; [apply H1 |].
  split; cbn [insertToDatabase insert_loop]; unfold mbind, M_bind;
    now rewrite H1.
Qed.

(** What the code does with a failing [insertOne]: the [catch] of the
    per-record [try] takes the failure, so the record is skipped and not
    counted, the importer state (errors and totalImported included) is
    unchanged, and the remaining records of the fetch are processed.
    Every turn of the loop from an in-range cursor returns normally, so
    the loop goes on to the next turn; and whatever the store does during
    a turn whose fetch is iterable, that turn counts no error and advances
    the cursor. *)
Theorem insert_failure_swallowed est rest inserted (w : World env) lat lon d1 e d2 :
  coordinates est = Some (lat, lon) ->
  findOne (dedup_key est lat lon) (db w) = (Resolved None, d1) ->
  insertOne (make_doc est lat lon (now w)) d1 = (Rejected e, d2) ->
  exists w1,
    insert_one_element est inserted w = (Ok inserted, w1)
    /\ st w1 = st w
    /\ insert_loop (est :: rest) inserted w = insert_loop rest inserted w1
    /\ (exists n w',
          insert_loop (est :: rest) inserted w = (Ok n, w')
          /\ errors (st w') = errors (st w)
          /\ inserted <= n <= inserted + js_length rest)
    /\ (forall w0 : World env,
          cursor_ok (st w0) ->
          exists w0',
            import_step w0 = (Ok tt, w0')
            /\ forall fuel,
                 isRunning (st w0) = true ->
                 import_loop (S fuel) w0 = import_loop fuel w0')
    /\ (forall (w0 : World env) q,
          cursor_ok (st w0) ->
          current_query (st w0) = Some q ->
          iterable_answer (fst (axios_post q (net w0))) ->
          exists w0',
            import_step w0 = (Ok tt, w0')
            /\ errors (st w0') = errors (st w0)
            /\ currentProvinceIndex (st w0')
               = currentProvinceIndex (advance (st w0))
            /\ currentTypeIndex (st w0')
               = currentTypeIndex (advance (st w0))).
Proof.
  intros Hc Hfind Hins.
  pose proof (insert_one_element_run est inserted w lat lon Hc) as Hrun.
  cbv zeta in Hrun. unfold dedup_key in Hfind.
  change (name (make_doc est lat lon 0))
    with (name (make_doc est lat lon (now w))) in Hfind.
  rewrite Hfind, Hins in Hrun.
  eexists. split; [exact Hrun |]. split; [reflexivity |].
  assert (Hloop : insert_loop (est :: rest) inserted w
                  = insert_loop rest inserted
                      (set_db d2
                         (emit (Ev_insertOne (make_doc est lat lon (now w)))
                            (set_db d1
                               (emit (Ev_findOne
                                        (mkFilter lat lon
                                           (name (make_doc est lat lon (now w)))))
                                  w))))).
  { cbn [insert_loop]. unfold mbind, M_bind. now rewrite Hrun. }
  split; [exact Hloop |]. split.
  - rewrite Hloop.
    destruct (insert_loop_returns rest inserted
                (set_db d2
                   (emit (Ev_insertOne (make_doc est lat lon (now w)))
                      (set_db d1
                         (emit (Ev_findOne
                                  (mkFilter lat lon
                                     (name (make_doc est lat lon (now w)))))
                            w)))))
      as (n & w' & H & Hst & _ & _ & Hn).
    exists n, w'. split; [exact H |]. split; [now rewrite Hst | exact Hn].
  - split.
    + intros w0 Hok.
      destruct (import_step_returns w0 Hok) as (w0' & Hstep & _).
      exists w0'. split; [exact Hstep |].
      intros fuel Hrunning. now apply import_loop_continues.
    + intros w0 q Hok Hq Hit.
      destruct (import_step_imported w0 q Hok Hq Hit)
        as (n & w0' & Hstep & Herr & _ & _ & Hp & Ht & _).
      exists w0'. auto.
Qed.

End Pipeline.

(** *** Concrete runs *)

Lemma fetchFromOSM_remote_failure_witness :
  let w := start_world rate_limited_env [] tt in
  @axios_post rate_limited_env
    (overpass_query sample_province (Some "restaurant") 30000) (net w)
  = (Rejected rate_limit_error, tt)
  /\ exists w',
       fetchFromOSM sample_province (Some "restaurant") 30000 w
       = (Ok (Arr []), w')
       /\ now w' = 60000.
Proof.
  intros w. split; [reflexivity |].
  destruct (fetchFromOSM_remote_failure (env := rate_limited_env)
              sample_province (Some "restaurant") 30000 w
              rate_limit_error tt eq_refl)
    as (w' & Hfetch & _ & _ & H429 & _).
  exists w'. split; [exact Hfetch | exact (proj2 (H429 eq_refl))].
Defined.

Lemma element_without_coordinates_discarded_witness :
  let w := start_world (reliable_env []) [] tt in
  lacks_direct_pair sample_no_coordinates
  /\ lacks_center_pair sample_no_coordinates
  /\ insertToDatabase (Arr [sample_no_coordinates]) w = (Ok 0, w).
Proof.
  intros w.
  assert (H1 : lacks_direct_pair sample_no_coordinates) by (split; reflexivity).
  assert (H2 : lacks_center_pair sample_no_coordinates) by (split; reflexivity).
  split; [exact H1 |]. split; [exact H2 |].
  exact (proj2 (proj2 (element_without_coordinates_discarded
                         sample_no_coordinates [] 0 w H1 H2))).
Defined.

Lemma element_with_zero_coordinate_discarded_witness :
  let w := start_world (reliable_env []) [] tt in
  zero_latitude sample_equator
  /\ zero_latitude sample_null_island
  /\ insertToDatabase (Arr [sample_equator]) w = (Ok 0, w)
  /\ insertToDatabase (Arr [sample_null_island]) w = (Ok 0, w).
Proof.
  intros w.
  assert (H1 : zero_latitude sample_equator)
    by (right; split; reflexivity).
  assert (H2 : zero_latitude sample_null_island)
    by (left; reflexivity).
  split; [exact H1 |]. split; [exact H2 |]. split.
  - exact (proj2 (proj2 (proj2 (element_with_zero_coordinate_discarded
                                  sample_equator [] 0 w (or_introl H1))))).
  - exact (proj2 (proj2 (proj2 (element_with_zero_coordinate_discarded
                                  sample_null_island [] 0 w (or_introl H2))))).
Defined.

Lemma insert_failure_swallowed_witness :
  let w := start_world (outage_env [sample_cafe]) [] tt in
  coordinates sample_cafe = Some (14.5%float, 121%float)
  /\ @insertOne (outage_env [sample_cafe])
       (make_doc sample_cafe 14.5 121 (now w)) []
     = (Rejected outage_error, [])
  /\ exists w1,
       insert_one_element sample_cafe 0 w = (Ok 0, w1) /\ st w1 = st w.
Proof.
  intros w. split; [reflexivity |]. split; [reflexivity |].
  destruct (insert_failure_swallowed (env := outage_env [sample_cafe])
              sample_cafe [] 0 w 14.5%float 121%float [] outage_error []
              eq_refl eq_refl eq_refl)
    as (w1 & Hrun & Hst & _).
  exists w1. split; [exact Hrun | exact Hst].
Defined.

(** C2, at the failing input: the store rejects every insert and a work
    unit fetches one new element.  The claim requires errors to rise by 1
    for the failed record.  The code tries the insert, its per-record
    [catch] (commented "Skip duplicates silently") takes the failure, the
    handler of the loop that counts errors is never reached, and the turn
    ends with errors still 0 and the cursor advanced. *)
Lemma outage_not_counted :
  let env := outage_env [sample_cafe] in
  let w := start_world env [] tt in
  let doc := make_doc sample_cafe 14.5 121 0 in
  @insertOne env doc (db w) = (Rejected outage_error, db w)
  /\ fst (import_step w) = Ok tt
  /\ trace (snd (import_step w))
     = [Ev_log (Log_cycle 1 "Metro Manila" (Some "restaurant"));
        Ev_post (overpass_query sample_province (Some "restaurant") 30000);
        Ev_findOne (dedup_key sample_cafe 14.5 121);
        Ev_insertOne doc;
        Ev_sleep 3000]
  /\ errors (st w) = 0
  /\ errors (st (snd (import_step w))) = 0
  /\ errors (st (snd (import_step w))) <> errors (st w) + 1
  /\ currentTypeIndex (st (snd (import_step w))) = 1.
Proof.
  cbv zeta. repeat split; try (vm_compute; reflexivity).
  vm_compute. discriminate.
Qed.

(** ** The pipeline over the reference collection *)

Lemma truthy_num_eqb (x : float) :
  truthy_num x = true -> (x =? x)%float = true.
Proof.
  unfold truthy_num, PrimFloat.is_nan.
  destruct (x =? x)%float; [reflexivity |].
  rewrite orb_true_r. discriminate.
Qed.

Lemma coordinates_truthy est lat lon :
  coordinates est = Some (lat, lon) ->
  truthy_num lat = true /\ truthy_num lon = true.
Proof.
  unfold coordinates.
  destruct (resolved_lat est) as [la|]; [| discriminate].
  destruct (resolved_lon est) as [lo|]; [| discriminate].
  destruct (truthy_num la) eqn:Hla, (truthy_num lo) eqn:Hlo; cbn;
    try discriminate.
  intros [= <- <-]. auto.
Qed.

(** A document built from an element matches that element's key. *)
Lemma doc_matches_own_key est lat lon date :
  coordinates est = Some (lat, lon) ->
  doc_matches (dedup_key est lat lon) (make_doc est lat lon date) = true.
Proof.
  intros H. destruct (coordinates_truthy _ _ _ H) as [Hla Hlo].
  unfold doc_matches, dedup_key.
  cbn [latitude longitude name make_doc f_latitude f_longitude f_name].
  now rewrite (truthy_num_eqb _ Hla), (truthy_num_eqb _ Hlo), String.eqb_refl.
Qed.

Lemma count_key_find_none f docs :
  count_key f docs = 0%nat -> List.find (doc_matches f) docs = None.
Proof.
  unfold count_key. induction docs as [|d docs IH]; cbn; [reflexivity |].
  destruct (doc_matches f d); cbn; [discriminate | exact IH].
Qed.

Lemma count_key_find_some f docs :
  count_key f docs <> 0%nat -> exists d, List.find (doc_matches f) docs = Some d.
Proof.
  unfold count_key. induction docs as [|d docs IH]; cbn; [congruence |].
  destruct (doc_matches f d); cbn; eauto.
Qed.

Lemma count_key_snoc f docs d :
  count_key f (docs ++ [d])
  = (count_key f docs + if doc_matches f d then 1 else 0)%nat.
Proof.
  unfold count_key. rewrite List.filter_app, length_app. cbn.
  now destruct (doc_matches f d).
Qed.

Section MemoryStore.
Variables (delay : Z) (remote : Query -> Outcome Response).
Abbreviation env := (memory_env delay remote None).

(** A record whose key is not stored is inserted and counted. *)
Lemma memory_insert_new est inserted (w : World env) lat lon :
  coordinates est = Some (lat, lon) ->
  count_key (dedup_key est lat lon) (db w) = 0%nat ->
  exists w',
    insert_one_element est inserted w = (Ok (inserted + 1), w')
    /\ db w' = (db w ++ [make_doc est lat lon (now w)])%list
    /\ st w' = st w /\ now w' = now w.
Proof.
  intros Hc Hcount.
  rewrite (insert_one_element_run est inserted w lat lon Hc). cbn.
  apply count_key_find_none in Hcount. unfold dedup_key in Hcount.
  cbn in Hcount. rewrite Hcount.
  eexists. split; [reflexivity |]. repeat split.
Qed.

(** A record whose key is stored is skipped: nothing is written, nothing
    is counted. *)
Lemma memory_insert_existing est inserted (w : World env) lat lon :
  coordinates est = Some (lat, lon) ->
  count_key (dedup_key est lat lon) (db w) <> 0%nat ->
  exists w',
    insert_one_element est inserted w = (Ok inserted, w')
    /\ db w' = db w /\ st w' = st w /\ now w' = now w.
Proof.
  intros Hc Hcount.
  rewrite (insert_one_element_run est inserted w lat lon Hc). cbn.
  apply count_key_find_some in Hcount as [d Hd]. unfold dedup_key in Hd.
  cbn in Hd. rewrite Hd.
  eexists. split; [reflexivity |]. repeat split.
Qed.

(** Two elements with one key, met in a collection that does not hold the
    key: the first is inserted, the second is skipped. *)
Lemma memory_insert_pair e1 e2 lat lon (w : World env) :
  coordinates e1 = Some (lat, lon) ->
  coordinates e2 = Some (lat, lon) ->
  dedup_key e2 lat lon = dedup_key e1 lat lon ->
  count_key (dedup_key e1 lat lon) (db w) = 0%nat ->
  exists w',
    insertToDatabase (Arr [e1; e2]) w = (Ok 1, w')
    /\ db w' = (db w ++ [make_doc e1 lat lon (now w)])%list
    /\ count_key (dedup_key e1 lat lon) (db w') = 1%nat
    /\ st w' = st w /\ now w' = now w.
Proof.
  intros Hc1 Hc2 Hkey Hcount.
  destruct (memory_insert_new e1 0 w lat lon Hc1 Hcount)
    as (w1 & Hrun1 & Hdb1 & Hst1 & Hnow1).
  assert (Hcount1 : count_key (dedup_key e1 lat lon) (db w1) = 1%nat).
  { rewrite Hdb1, count_key_snoc, Hcount, doc_matches_own_key by exact Hc1.
    reflexivity. }
  destruct (memory_insert_existing e2 (0 + 1) w1 lat lon Hc2)
    as (w2 & Hrun2 & Hdb2 & Hst2 & Hnow2).
  { rewrite Hkey, Hcount1. discriminate. }
  exists w2. split.
  - cbn [insertToDatabase insert_loop]. unfold mbind, M_bind, mret, M_ret.
    now rewrite Hrun1, Hrun2.
  - rewrite Hdb2, Hst2, Hnow2. auto.
Qed.

End MemoryStore.

(** C3: the same record, by its (latitude, longitude, name), met twice in
    one fetch while the collection does not hold it yet, is stored exactly
    once: the insert pass returns 1 and leaves one document with that key,
    and the turn of the loop adds exactly 1 to totalImported and nothing to
    the error counter. *)
Theorem duplicate_inserted_once delay e1 e2 lat lon
    (w : World (memory_env delay (answer [e1; e2]) None)) :
  cursor_ok (st w) ->
  coordinates e1 = Some (lat, lon) ->
  coordinates e2 = Some (lat, lon) ->
  dedup_key e2 lat lon = dedup_key e1 lat lon ->
  count_key (dedup_key e1 lat lon) (db w) = 0%nat ->
  (exists w1,
     insertToDatabase (Arr [e1; e2]) w = (Ok 1, w1)
     /\ db w1 = (db w ++ [make_doc e1 lat lon (now w)])%list
     /\ count_key (dedup_key e1 lat lon) (db w1) = 1%nat
     /\ st w1 = st w)
  /\ (exists w1 w2,
        insertToDatabase (Arr [e1]) w = (Ok 1, w1)
        /\ insertToDatabase (Arr [e2]) w1 = (Ok 0, w2)
        /\ db w2 = db w1
        /\ count_key (dedup_key e1 lat lon) (db w2) = 1%nat)
  /\ (exists w',
        import_step w = (Ok tt, w')
        /\ totalImported (st w') = totalImported (st w) + 1
        /\ errors (st w') = errors (st w)
        /\ db w' = (db w ++ [make_doc e1 lat lon (now w)])%list
        /\ count_key (dedup_key e1 lat lon) (db w') = 1%nat).
Proof.
  intros [Hp _] Hc1 Hc2 Hkey Hcount. split; [| split].
  - destruct (memory_insert_pair delay _ e1 e2 lat lon w Hc1 Hc2 Hkey Hcount)
      as (w1 & H & Hdb & Hk & Hst & _).
    exists w1. auto.
  - destruct (memory_insert_new delay _ e1 0 w lat lon Hc1 Hcount)
      as (w1 & Hrun1 & Hdb1 & _).
    assert (Hcount1 : count_key (dedup_key e1 lat lon) (db w1) = 1%nat).
    { rewrite Hdb1, count_key_snoc, Hcount, doc_matches_own_key by exact Hc1.
      reflexivity. }
    destruct (memory_insert_existing delay _ e2 0 w1 lat lon Hc2)
      as (w2 & Hrun2 & Hdb2 & _).
    { rewrite Hkey, Hcount1. discriminate. }
    exists w1, w2.
    cbn [insertToDatabase insert_loop]. unfold mbind, M_bind, mret, M_ret.
    rewrite Hrun1, Hrun2, Hdb2. auto.
  - destruct (js_index_in_range ALL_PROVINCES _ Hp) as [province Hprov].
    set (w0 := emit (Ev_log (Log_cycle (cycleCount (st w) + 1)
                               (loc_name province)
                               (js_index ESTABLISHMENT_TYPES
                                  (currentTypeIndex (st w))))) w).
    set (q := overpass_query province
                (js_index ESTABLISHMENT_TYPES (currentTypeIndex (st w)))
                (loc_radius province * 1000)).
    set (w2 := set_net (net w0) (emit (Ev_post q) w0)).
    assert (Hf : fetchFromOSM province
                   (js_index ESTABLISHMENT_TYPES (currentTypeIndex (st w)))
                   (loc_radius province * 1000) w0
                 = (Ok (Arr [e1; e2]), w2)) by reflexivity.
    destruct (memory_insert_pair delay _ e1 e2 lat lon w2 Hc1 Hc2 Hkey Hcount)
      as (w3 & Hi & Hdb3 & Hk3 & Hst3 & Hnow3).
    destruct (import_step_run w province [e1; e2] w2 1 w3 Hprov Hf Hi)
      as (w' & Hstep & Hst & Hdb).
    exists w'. split; [exact Hstep |].
    rewrite Hst, Hdb, Hdb3, Hst3.
    unfold advance.
    destruct (advance_in_frame (js_length ALL_PROVINCES)
                (js_length ESTABLISHMENT_TYPES)
                (set_lastImportTime (Some (now w3))
                   (set_totalImported (totalImported (st w2) + 1) (st w2))))
      as (Htot & Herr & _).
    rewrite Htot, Herr. repeat split.
    rewrite <- Hdb3. exact Hk3.
Qed.

Lemma duplicate_inserted_once_witness :
  let env := memory_env 3000 (answer [sample_cafe; sample_cafe_twin]) None in
  let w := start_world env [] tt in
  coordinates sample_cafe = Some (14.5%float, 121%float)
  /\ coordinates sample_cafe_twin = Some (14.5%float, 121%float)
  /\ dedup_key sample_cafe_twin 14.5 121 = dedup_key sample_cafe 14.5 121
  /\ exists w',
       import_step w = (Ok tt, w')
       /\ totalImported (st w') = totalImported (st w) + 1
       /\ errors (st w') = errors (st w).
Proof.
  intros env w.
  assert (Hkey : dedup_key sample_cafe_twin 14.5 121
                 = dedup_key sample_cafe 14.5 121)
    by (vm_compute; reflexivity).
  split; [reflexivity |]. split; [reflexivity |]. split; [exact Hkey |].
  destruct (duplicate_inserted_once 3000 sample_cafe sample_cafe_twin
              14.5%float 121%float w cursor_ok_initial eq_refl eq_refl
              Hkey eq_refl)
    as (_ & _ & w' & Hstep & Htot & Herr & _).
  exists w'. auto.
Defined.

(** ** [GET /api/recent] over the reference collection *)

Lemma recent_limit_nonzero param : recent_limit param <> 0.
Proof.
  unfold recent_limit.
  destruct (parseInt _) as [n|]; [| discriminate].
  destruct (Z.eqb_spec n 0); [discriminate | assumption].
Qed.

(** What the reference collection answers to the query of the handler:
    every document, newest first, cut after [|limit|]. *)
Lemma sort_limit_nonzero limit docs :
  limit <> 0 ->
  sort_limit None (mkSort "addedAt" (-1)) limit docs
  = take (Z.abs_nat limit) (merge_sort newer_first docs).
Proof.
  intros H. unfold sort_limit, sort_docs, select_docs. cbn.
  destruct (Z.eqb_spec limit 0); [contradiction | reflexivity].
Qed.

(** The first [n] documents of the sorted collection are sorted, and none
    of the others is newer than any of them. *)
Lemma take_sorted_newest (n : nat) (docs : list Doc) :
  let sorted := merge_sort newer_first docs in
  StronglySorted newer_first (take n sorted)
  /\ (take n sorted ++ drop n sorted)%list ≡ₚ docs
  /\ (forall d d', d ∈ take n sorted -> d' ∈ drop n sorted ->
        addedAt d' <= addedAt d).
Proof.
  intros sorted.
  assert (Hs : StronglySorted newer_first (take n sorted ++ drop n sorted)).
  { rewrite take_drop. apply StronglySorted_merge_sort; apply _. }
  apply StronglySorted_app in Hs as (Hcross & Hl & _).
  split; [exact Hl |]. split.
  - rewrite take_drop. apply merge_sort_Permutation.
  - intros d d' Hd Hd'. exact (Hcross d d' Hd Hd').
Qed.

(** In any environment the handler asks the collection for every document
    ([find({})]) sorted by [{addedAt: -1}] and cut at the limit, and when
    that query resolves it answers 200 with exactly the array it was given,
    under [establishments], and its length under [count]. *)
Lemma api_recent_resolved {env : Environment} param (w : World env) answer d :
  find_sort_limit None (mkSort "addedAt" (-1)) (recent_limit param) (db w)
  = (Resolved answer, d) ->
  api_recent param w
  = (Ok (mkHttpResponse 200
           [("success", J_bool true);
            ("count", J_num (Z.of_nat (length answer)));
            ("establishments", J_docs answer)]),
     set_db d (emit (Ev_find (recent_limit param)) w)).
Proof.
  intros H.
  unfold api_recent, try_catch, mbind, M_bind, mret, M_ret, collection_find.
  now rewrite H.
Qed.

(** The handler over the reference collection: it always succeeds, with
    the first [|limit|] documents of the sorted collection. *)
Lemma api_recent_memory delay remote outage param
    (w : World (memory_env delay remote outage)) :
  let limit := recent_limit param in
  let docs := take (Z.abs_nat limit) (merge_sort newer_first (db w)) in
  api_recent param w
  = (Ok (mkHttpResponse 200
           [("success", J_bool true);
            ("count", J_num (Z.of_nat (length docs)));
            ("establishments", J_docs docs)]),
     emit (Ev_find limit) w)
  /\ length docs = Nat.min (Z.abs_nat limit) (length (db w)).
Proof.
  intros limit docs. split.
  - unfold api_recent, try_catch, mbind, M_bind, mret, M_ret, collection_find.
    cbn. rewrite sort_limit_nonzero by apply recent_limit_nonzero.
    reflexivity.
  - unfold docs. rewrite length_take.
    now rewrite (Permutation_length (merge_sort_Permutation newer_first (db w))).
Qed.

(** C8 (as amended): on success [GET /api/recent?limit=N] answers 200 with
    the body {success: true, count, establishments: [...]}: the member is
    named [establishments].  In any environment the handler asks the
    collection for all documents sorted by [{addedAt: -1}] and answers with
    the array it is given, count being its length.  Over the reference
    collection that array holds the documents ordered by descending
    [addedAt], cut after the limit, so that no document left out is newer
    than one returned. *)
Theorem api_recent_newest_first delay remote outage param
    (w : World (memory_env delay remote outage)) :
  let limit := recent_limit param in
  let docs := take (Z.abs_nat limit) (merge_sort newer_first (db w)) in
  (forall (env : Environment) (w0 : World env) answer d,
     find_sort_limit None (mkSort "addedAt" (-1)) limit (db w0)
     = (Resolved answer, d) ->
     api_recent param w0
     = (Ok (mkHttpResponse 200
              [("success", J_bool true);
               ("count", J_num (Z.of_nat (length answer)));
               ("establishments", J_docs answer)]),
        set_db d (emit (Ev_find limit) w0)))
  /\ api_recent param w
     = (Ok (mkHttpResponse 200
              [("success", J_bool true);
               ("count", J_num (Z.of_nat (length docs)));
               ("establishments", J_docs docs)]),
        emit (Ev_find limit) w)
  /\ StronglySorted newer_first docs
  /\ length docs = Nat.min (Z.abs_nat limit) (length (db w))
  /\ exists older,
       (docs ++ older)%list ≡ₚ db w
       /\ forall d d', d ∈ docs -> d' ∈ older -> addedAt d' <= addedAt d.
Proof.
  intros limit docs.
  destruct (take_sorted_newest (Z.abs_nat limit) (db w)) as (Hs & Hp & Hn).
  destruct (api_recent_memory delay remote outage param w) as [Hrun Hlen].
  split.
  { intros env w0 answer d H. now apply api_recent_resolved. }
  split; [exact Hrun |]. split; [exact Hs |]. split; [exact Hlen |].
  exists (drop (Z.abs_nat limit) (merge_sort newer_first (db w))).
  split; [exact Hp | exact Hn].
Qed.

Lemma api_recent_newest_first_witness :
  let w := start_world (reliable_env []) sample_docs tt in
  let found := [make_doc sample_untagged 7.07 125.6 3000;
                 make_doc sample_way 10.3 123.9 2000] in
  @find_sort_limit (reliable_env []) None (mkSort "addedAt" (-1))
    (recent_limit (Some (code_units "2"))) (db w)
  = (Resolved found, db w)
  /\ api_recent (Some (code_units "2")) w
     = (Ok (mkHttpResponse 200
              [("success", J_bool true);
               ("count", J_num 2);
               ("establishments", J_docs found)]),
        set_db (db w) (emit (Ev_find 2) w)).
Proof.
  intros w found.
  assert (H : @find_sort_limit (reliable_env []) None (mkSort "addedAt" (-1))
                (recent_limit (Some (code_units "2"))) (db w)
              = (Resolved found, db w)) by (vm_compute; reflexivity).
  split; [exact H |].
  exact (proj1 (api_recent_newest_first 3000 (answer []) None
                  (Some (code_units "2")) w)
           (reliable_env []) w found (db w) H).
Defined.

(** C8 as stated fails on the member name: the body has no [records]
    member; the documents are under [establishments]. *)
Lemma api_recent_has_no_records_member :
  let w := start_world (reliable_env []) sample_docs tt in
  exists r,
    fst (api_recent (Some (code_units "2")) w) = Ok r
    /\ status r = 200
    /\ map fst (body r) = ["success"; "count"; "establishments"]
    /\ body_member "records" r = None
    /\ body_member "count" r = Some (J_num 2)
    /\ body_member "establishments" r
       = Some (J_docs [make_doc sample_untagged 7.07 125.6 3000;
                       make_doc sample_way 10.3 123.9 2000]).
Proof.
  eexists. split; [vm_compute; reflexivity |].
  repeat split; vm_compute; reflexivity.
Qed.

(** C10: a [limit] parameter that is absent, or that [parseInt] turns into
    [NaN] or into zero, is replaced by 100: the handler then asks the
    collection for 100 documents, so [limit=0] answers with the 100 newest
    documents (all of them when there are fewer), not with none. *)
Theorem recent_limit_default param :
  falsy_limit param ->
  recent_limit param = 100
  /\ forall delay remote outage (w : World (memory_env delay remote outage)),
       let docs := take 100 (merge_sort newer_first (db w)) in
       api_recent param w
       = (Ok (mkHttpResponse 200
                [("success", J_bool true);
                 ("count", J_num (Z.of_nat (Nat.min 100 (length (db w)))));
                 ("establishments", J_docs docs)]),
          emit (Ev_find 100) w).
Proof.
  intros Hfalsy.
  assert (Hlimit : recent_limit param = 100).
  { unfold recent_limit.
    destruct Hfalsy as [-> | [-> | ->]]; reflexivity. }
  split; [exact Hlimit |].
  intros delay remote outage w docs.
  destruct (api_recent_memory delay remote outage param w) as [Hrun Hlen].
  rewrite Hrun, Hlen, Hlimit. reflexivity.
Qed.

Lemma recent_limit_default_witness :
  falsy_limit None
  /\ falsy_limit (Some (code_units "abc"))
  /\ falsy_limit (Some (code_units "0"))
  /\ recent_limit (Some (code_units "0")) = 100.
Proof.
  assert (H0 : falsy_limit (Some (code_units "0")))
    by (right; right; reflexivity).
  split; [left; reflexivity |].
  split; [right; left; reflexivity |].
  split; [exact H0 |].
  exact (proj1 (recent_limit_default (Some (code_units "0")) H0)).
Defined.

(** ** Normalisation *)

Lemma truthy_str_nonempty (s : string) : s <> "" -> truthy_str s = true.
Proof. destruct s; [congruence | reflexivity]. Qed.

(** C7: the document built from an element with coordinates carries those
    coordinates; its name is the name tag when there is one, else the
    amenity (category) tag, else "Establishment"; its category is the
    amenity tag, or "general" without one; its address is
    "Address not available" when neither addr:full nor addr:street is
    tagged; phone and website are null when not tagged. *)
Theorem make_doc_fallbacks est lat lon date :
  let doc := make_doc est lat lon date in
  (latitude doc = lat /\ longitude doc = lon)
  /\ (forall n, tag est "name" = Some n -> n <> "" -> name doc = n)
  /\ (tag est "name" = None ->
      forall a, tag est "amenity" = Some a -> a <> "" ->
                name doc = a /\ category doc = a)
  /\ (tag est "name" = None -> tag est "amenity" = None ->
      name doc = "Establishment")
  /\ (tag est "amenity" = None -> category doc = "general")
  /\ (tag est "addr:full" = None -> tag est "addr:street" = None ->
      address doc = "Address not available")
  /\ (tag est "phone" = None -> phone doc = None)
  /\ (tag est "website" = None -> website doc = None).
Proof.
  cbv zeta. unfold make_doc.
  cbn [name category latitude longitude address phone website].
  split; [split; reflexivity |].
  split. { intros n -> Hn. cbn. now rewrite truthy_str_nonempty. }
  split. { intros -> a -> Ha. cbn. now rewrite truthy_str_nonempty. }
  split. { now intros -> ->. }
  split. { now intros ->. }
  split. { now intros -> ->. }
  split; now intros ->.
Qed.

Lemma make_doc_fallbacks_witness :
  (tag sample_way "name" = None
   /\ tag sample_way "amenity" = Some "school"
   /\ name (make_doc sample_way 10.3 123.9 0) = "school")
  /\ (tag sample_untagged "amenity" = None
      /\ category (make_doc sample_untagged 7.07 125.6 0) = "general").
Proof.
  assert (Hname : tag sample_way "name" = None) by (vm_compute; reflexivity).
  assert (Hamenity : tag sample_way "amenity" = Some "school")
    by (vm_compute; reflexivity).
  assert (Hnone : tag sample_untagged "amenity" = None) by reflexivity.
  pose proof (make_doc_fallbacks sample_way 10.3 123.9 0) as Hway.
  pose proof (make_doc_fallbacks sample_untagged 7.07 125.6 0) as Hun.
  cbv zeta in Hway, Hun.
  destruct Hway as (_ & _ & Hfall & _).
  destruct Hun as (_ & _ & _ & _ & Hcat & _).
  split.
  - split; [exact Hname |]. split; [exact Hamenity |].
    refine (proj1 (Hfall Hname "school" Hamenity _)). discriminate.
  - split; [exact Hnone | exact (Hcat Hnone)].
Defined.

(** * Further properties of the pipeline *)

Section PipelineBehaviour.
Context {env : Environment}.

Ltac run_M' :=
  unfold mbind, M_bind, mret, M_ret, try_catch, throw, get_state,
    modify_state, new_Date, log, sleep, post, collection_findOne,
    collection_insertOne, collection_find, await in *.

(** [fetchFromOSM] returns in every case, after one request and without
    touching the importer state or the store. *)
Lemma fetchFromOSM_total location type radius (w : World env) :
  exists els w' evs,
    fetchFromOSM location type radius w = (Ok els, w')
    /\ st w' = st w /\ db w' = db w
    /\ trace w'
       = (trace w ++ Ev_post (overpass_query location type radius) :: evs)%list
    /\ count_events is_post evs = 0%nat.
Proof.
  destruct (axios_post (overpass_query location type radius) (net w))
    as [[r|e] n] eqn:H.
  - unfold fetchFromOSM. run_M'. rewrite H. cbn.
    destruct (data r) as [[els|]|]; cbn.
    + eexists _, _, []. repeat split; auto.
    + eexists _, _, []. repeat split; auto.
    + eexists _, _, [_]. split; [reflexivity |]. cbn.
      rewrite <- app_assoc. repeat split; auto.
  - rewrite (fetchFromOSM_rejected _ _ _ _ _ _ H). cbv zeta.
    repeat case_bool_decide;
      [eexists _, _, [_; _] | eexists _, _, [_] | eexists _, _, [_]];
      (split; [reflexivity |]); cbn; rewrite <- !app_assoc;
      repeat split; auto.
Qed.


(** X2: What [fetchFromOSM] makes of an answered request: the [elements] array
    as it came, the empty sequence when [elements] is missing or falsy, and
    the empty sequence with a logged fetch error when the answer has no
    body. *)
Theorem fetchFromOSM_resolved location type radius (w : World env) r n :
  axios_post (overpass_query location type radius) (net w) = (Resolved r, n) ->
  let w1 := set_net n (emit (Ev_post (overpass_query location type radius)) w) in
  fetchFromOSM location type radius w =
  match data r with
  | Some (Some elements) => (Ok elements, w1)
  | Some None => (Ok (Arr []), w1)
  | None =>
      (Ok (Arr []),
       emit (Ev_log (Log_fetch_error "Cannot read properties of undefined")) w1)
  end.
Proof.
  intros H. cbv zeta. unfold fetchFromOSM. run_M'. rewrite H. cbn.
  destruct (data r) as [[els|]|]; reflexivity.
Qed.

Lemma count_events_app p (t1 t2 : list Event) :
  count_events p (t1 ++ t2) = (count_events p t1 + count_events p t2)%nat.
Proof. unfold count_events. now rewrite List.filter_app, length_app. Qed.

Lemma checked_inserts_app t1 t2 :
  checked_inserts t1 -> checked_inserts t2 -> checked_inserts (t1 ++ t2).
Proof.
  induction 1 as [|f t H IH|d t H IH]; intros H2; cbn.
  - exact H2.
  - apply checked_find. now apply IH.
  - apply checked_find_insert. now apply IH.
Qed.

(** The store calls made for one element. *)
Lemma insert_one_element_events est inserted (w : World env) :
  exists n w' evs,
    insert_one_element est inserted w = (Ok n, w')
    /\ trace w' = (trace w ++ evs)%list
    /\ st w' = st w /\ now w' = now w /\ net w' = net w
    /\ checked_inserts evs
    /\ length evs
       = (count_events is_findOne evs + count_events is_insertOne evs)%nat
    /\ count_events is_findOne evs = length (with_coordinates [est])
    /\ (count_events is_insertOne evs <= count_events is_findOne evs)%nat
    /\ inserted <= n <= inserted + Z.of_nat (count_events is_insertOne evs)
    /\ count_events is_post evs = 0%nat.
Proof.
  destruct (coordinates est) as [[lat lon]|] eqn:Hc.
  - assert (Hwc : length (with_coordinates [est]) = 1%nat).
    { unfold with_coordinates. cbn. rewrite Hc.
      rewrite bool_decide_eq_true_2 by eauto. reflexivity. }
    rewrite Hwc.
    rewrite (insert_one_element_run _ _ _ _ _ Hc). cbv zeta.
    destruct (findOne _ (db w)) as [[[existing|]|e] d1].
    + eexists _, _, [_]. split; [reflexivity |].
      repeat split; cbn; try lia. repeat constructor.
    + destruct (insertOne _ d1) as [[[]|e] d2].
      * eexists _, _, [_; _]. split; [reflexivity |].
        cbn. rewrite <- app_assoc. repeat split; cbn; try lia.
        apply (checked_find_insert (make_doc est lat lon (now w))).
        constructor.
      * eexists _, _, [_; _]. split; [reflexivity |].
        cbn. rewrite <- app_assoc. repeat split; cbn; try lia.
        apply (checked_find_insert (make_doc est lat lon (now w))).
        constructor.
    + eexists _, _, [_]. split; [reflexivity |].
      repeat split; cbn; try lia. repeat constructor.
  - assert (Hwc : length (with_coordinates [est]) = 0%nat).
    { unfold with_coordinates. cbn. rewrite Hc.
      rewrite bool_decide_eq_false_2; [reflexivity |].
      intros [x Hx]. discriminate. }
    rewrite Hwc, (insert_one_element_discarded _ _ _ Hc).
    exists inserted, w, []. rewrite app_nil_r.
    cbn. repeat split; try lia. constructor.
Qed.

Lemma with_coordinates_cons est rest :
  length (with_coordinates (est :: rest))
  = (length (with_coordinates [est]) + length (with_coordinates rest))%nat.
Proof.
  unfold with_coordinates. cbn.
  destruct (bool_decide _); reflexivity.
Qed.

Lemma insert_loop_events ests : forall inserted (w : World env),
  exists n w' evs,
    insert_loop ests inserted w = (Ok n, w')
    /\ trace w' = (trace w ++ evs)%list
    /\ st w' = st w /\ now w' = now w /\ net w' = net w
    /\ checked_inserts evs
    /\ length evs
       = (count_events is_findOne evs + count_events is_insertOne evs)%nat
    /\ count_events is_findOne evs = length (with_coordinates ests)
    /\ (count_events is_insertOne evs <= count_events is_findOne evs)%nat
    /\ inserted <= n <= inserted + Z.of_nat (count_events is_insertOne evs)
    /\ count_events is_post evs = 0%nat.
Proof.
  induction ests as [|est rest IH]; intros inserted w.
  - exists inserted, w, []. rewrite app_nil_r. cbn.
    repeat split; try lia. constructor.
  - destruct (insert_one_element_events est inserted w)
      as (n1 & w1 & evs1 & H1 & Ht1 & Hst1 & Hnow1 & Hnet1 & Hp1 & Hl1
          & Hf1 & Hi1 & Hn1 & Hq1).
    destruct (IH n1 w1)
      as (n2 & w2 & evs2 & H2 & Ht2 & Hst2 & Hnow2 & Hnet2 & Hp2 & Hl2
          & Hf2 & Hi2 & Hn2 & Hq2).
    exists n2, w2, (evs1 ++ evs2)%list.
    cbn [insert_loop]. unfold mbind, M_bind. rewrite H1, H2.
    rewrite !count_events_app, length_app, with_coordinates_cons.
    split; [reflexivity |].
    split; [now rewrite Ht2, Ht1, app_assoc |].
    repeat split; try congruence; try lia.
    now apply checked_inserts_app.
Qed.

Lemma insertToDatabase_events l (w : World env) :
  exists n w' evs,
    insertToDatabase (Arr l) w = (Ok n, w')
    /\ trace w' = (trace w ++ evs)%list
    /\ st w' = st w /\ now w' = now w /\ net w' = net w
    /\ checked_inserts evs
    /\ length evs
       = (count_events is_findOne evs + count_events is_insertOne evs)%nat
    /\ count_events is_findOne evs = length (with_coordinates l)
    /\ (count_events is_insertOne evs <= count_events is_findOne evs)%nat
    /\ 0 <= n <= 0 + Z.of_nat (count_events is_insertOne evs)
    /\ count_events is_post evs = 0%nat.
Proof.
  destruct l as [|est rest]; [| exact (insert_loop_events (est :: rest) 0 w)].
  exact (insert_loop_events [] 0 w).
Qed.

(** X3: An insert pass over an array never throws and leaves the importer
    state, the clock and the network alone.  It makes one existence check
    per element that has coordinates and nothing else but inserts; the
    count it returns is at most the number of inserts it attempted, hence
    at most the number of elements with coordinates. *)
Theorem insertToDatabase_store_calls l (w : World env) :
  exists n w' evs,
    insertToDatabase (Arr l) w = (Ok n, w')
    /\ trace w' = (trace w ++ evs)%list
    /\ st w' = st w /\ now w' = now w /\ net w' = net w
    /\ length evs
       = (count_events is_findOne evs + count_events is_insertOne evs)%nat
    /\ count_events is_findOne evs = length (with_coordinates l)
    /\ (count_events is_insertOne evs <= count_events is_findOne evs)%nat
    /\ 0 <= n <= Z.of_nat (count_events is_insertOne evs)
    /\ n <= Z.of_nat (length (with_coordinates l))
    /\ count_events is_post evs = 0%nat.
Proof.
  destruct (insertToDatabase_events l w)
    as (n & w' & evs & H & Ht & Hst & Hnow & Hnet & _ & Hl & Hf & Hi & Hn & Hq).
  exists n, w', evs. split; [exact H |].
  split; [exact Ht |]. split; [exact Hst |]. split; [exact Hnow |].
  split; [exact Hnet |]. split; [exact Hl |]. split; [exact Hf |].
  split; [exact Hi |]. split; [lia |]. split; [lia | exact Hq].
Qed.

(** X4: In an insert pass every [insertOne] comes right after a [findOne] on
    the (latitude, longitude, name) of the document being inserted: no
    document is written without its existence check. *)
Theorem insertToDatabase_checks_before_insert l (w : World env) :
  exists n w' evs,
    insertToDatabase (Arr l) w = (Ok n, w')
    /\ trace w' = (trace w ++ evs)%list
    /\ checked_inserts evs.
Proof.
  destruct (insertToDatabase_events l w)
    as (n & w' & evs & H & Ht & _ & _ & _ & Hp & _).
  exists n, w', evs. auto.
Qed.

Lemma current_query_in_range (s : State) :
  cursor_ok s -> exists q, current_query s = Some q.
Proof.
  intros [Hp _]. unfold current_query.
  destruct (js_index_in_range ALL_PROVINCES _ Hp) as [province ->]. eauto.
Qed.



Lemma advance_cursor_ext (s1 s2 : State) :
  cursor_of s1 = cursor_of s2 ->
  cursor_of (advance s1) = cursor_of (advance s2).
Proof.
  unfold cursor_of. intros [= Hp Ht Hc].
  destruct (advance_in_cursor_ext (js_length ALL_PROVINCES)
              (js_length ESTABLISHMENT_TYPES) s1 s2 Hp Ht Hc) as (H1 & H2 & H3).
  unfold advance. now rewrite H1, H2, H3.
Qed.

Lemma iter_advance_cursor_ext (k : nat) (s1 s2 : State) :
  cursor_of s1 = cursor_of s2 ->
  cursor_of (Nat.iter k advance s1) = cursor_of (Nat.iter k advance s2).
Proof.
  intros H. induction k as [|k IH]; [exact H |].
  rewrite !Nat.iter_succ. now apply advance_cursor_ext.
Qed.

(** A turn whose fetch is iterable, by the state it leaves. *)
Lemma import_step_iterable_state (w : World env) :
  (forall q (n : Net), iterable_answer (fst (axios_post q n))) ->
  cursor_ok (st w) ->
  exists imported date w',
    import_step w = (Ok tt, w')
    /\ 0 <= imported
    /\ st w' = advance (set_lastImportTime (Some date)
                 (set_totalImported (totalImported (st w) + imported) (st w))).
Proof.
  intros Hall Hok.
  destruct (current_query_in_range _ Hok) as [q Hq].
  destruct (import_step_imported w q Hok Hq (Hall q (net w)))
    as (n0 & w0 & Hstep0 & Herr0 & _).
  destruct (import_step_returns w Hok)
    as (w' & Hstep & [(n & date & Hn & Hst) | Hst]).
  - exists n, date, w'. auto.
  - rewrite Hstep in Hstep0. injection Hstep0 as <-.
    rewrite Hst in Herr0. cbn in Herr0. lia.
Qed.

Lemma import_loop_iterable_cursor (k : nat) : forall w : World env,
  (forall q (n : Net), iterable_answer (fst (axios_post q n))) ->
  cursor_ok (st w) ->
  isRunning (st w) = true ->
  exists w',
    import_loop k w = (Ok tt, w')
    /\ cursor_of (st w') = cursor_of (Nat.iter k advance (st w))
    /\ errors (st w') = errors (st w)
    /\ totalImported (st w) <= totalImported (st w')
    /\ isRunning (st w') = true.
Proof.
  induction k as [|k IH]; intros w Hall Hok Hrun.
  - exists w. cbn. repeat split; auto. lia.
  - destruct (import_step_iterable_state w Hall Hok)
      as (n & date & w1 & Hstep & Hn & Hst1).
    set (s1 := set_lastImportTime (Some date)
                 (set_totalImported (totalImported (st w) + n) (st w))) in *.
    destruct (advance_in_frame (js_length ALL_PROVINCES)
                (js_length ESTABLISHMENT_TYPES) s1) as (Htot & Herr & Hr & _).
    fold (advance s1) in Htot, Herr, Hr.
    assert (Hok1 : cursor_ok (st w1)).
    { rewrite Hst1. apply (advance_in_ok _ _ s1). exact Hok. }
    assert (Hrun1 : isRunning (st w1) = true) by (now rewrite Hst1, Hr).
    destruct (IH w1 Hall Hok1 Hrun1) as (w' & Hloop & Hcur & Herr' & Htot' & Hrun').
    exists w'. split.
    { rewrite (import_loop_continues w w1 k Hstep Hrun). exact Hloop. }
    split.
    { rewrite Hcur, Hst1, Nat.iter_succ_r.
      apply iter_advance_cursor_ext. now apply advance_cursor_ext. }
    rewrite Herr', Hst1, Herr.
    rewrite Hst1, Htot in Htot'. cbn in Htot'.
    repeat split; auto. lia.
Qed.

(** X7: While every fetch is iterable, [k] turns of the loop move the cursor
    exactly as [k] cursor steps do and count no error, whatever the store
    does and whatever is imported. *)
Theorem import_loop_follows_cursor (k : nat) (w : World env) :
  (forall q (n : Net), iterable_answer (fst (axios_post q n))) ->
  cursor_ok (st w) ->
  isRunning (st w) = true ->
  exists w',
    import_loop k w = (Ok tt, w')
    /\ cursor_of (st w') = cursor_of (Nat.iter k advance (st w))
    /\ errors (st w') = errors (st w).
Proof.
  intros Hall Hok Hrun.
  destruct (import_loop_iterable_cursor k w Hall Hok Hrun)
    as (w' & Hloop & Hcur & Herr & _).
  exists w'. auto.
Qed.

Lemma cursor_after_full_cycle (s : State) :
  cursor_ok s ->
  cursor_of (Nat.iter (length ALL_PROVINCES * length ESTABLISHMENT_TYPES)
               advance s)
  = (currentProvinceIndex s, currentTypeIndex s, cycleCount s + 1).
Proof.
  intros Hok.
  destruct (advance_in_full_cycle (length ALL_PROVINCES)
              (length ESTABLISHMENT_TYPES) s Hok) as (Hp & Ht & Hc).
  unfold cursor_of, advance, js_length. now rewrite Hp, Ht, Hc.
Qed.

(** X8: A full pass: while every fetch is iterable, as many turns as the
    catalog has work units bring the cursor back to the work unit it
    started from, with cycleCount one higher and no error counted. *)
Theorem import_loop_full_pass (w : World env) :
  (forall q (n : Net), iterable_answer (fst (axios_post q n))) ->
  cursor_ok (st w) ->
  isRunning (st w) = true ->
  exists w',
    import_loop (length ALL_PROVINCES * length ESTABLISHMENT_TYPES) w
    = (Ok tt, w')
    /\ currentProvinceIndex (st w') = currentProvinceIndex (st w)
    /\ currentTypeIndex (st w') = currentTypeIndex (st w)
    /\ cycleCount (st w') = cycleCount (st w) + 1
    /\ errors (st w') = errors (st w).
Proof.
  intros Hall Hok Hrun.
  destruct (import_loop_iterable_cursor
              (length ALL_PROVINCES * length ESTABLISHMENT_TYPES)
              w Hall Hok Hrun)
    as (w' & Hloop & Hcur & Herr & _).
  rewrite (cursor_after_full_cycle (st w) Hok) in Hcur.
  exists w'. split; [exact Hloop |].
  unfold cursor_of in Hcur. injection Hcur as Hp Ht Hc. auto.
Qed.

Lemma import_loop_total (fuel : nat) : forall w : World env,
  cursor_ok (st w) ->
  exists w',
    import_loop fuel w = (Ok tt, w')
    /\ cursor_ok (st w')
    /\ cycleCount (st w) <= cycleCount (st w')
    /\ totalImported (st w) <= totalImported (st w')
    /\ errors (st w) <= errors (st w')
    /\ isRunning (st w') = isRunning (st w)
    /\ startTime (st w') = startTime (st w).
Proof.
  induction fuel as [|fuel IH]; intros w Hok.
  - exists w. split; [reflexivity |]. split; [exact Hok |].
    repeat split; lia.
  - cbn [import_loop]. run_M'. cbv beta.
    destruct (isRunning (st w)) eqn:Hrun.
    + destruct (import_step_returns w Hok)
        as (w1 & Hstep & Hcase).
      destruct (import_step_preserves_cursor w Hok)
        as (w1' & Hstep' & Hok1 & Hc1).
      rewrite Hstep in Hstep'. injection Hstep' as <-.
      assert (Hmono : totalImported (st w) <= totalImported (st w1)
                      /\ errors (st w) <= errors (st w1)
                      /\ isRunning (st w1) = isRunning (st w)
                      /\ startTime (st w1) = startTime (st w)).
      { destruct Hcase as [(n & date & Hn & Hst) | Hst]; rewrite Hst.
        - set (s1 := set_lastImportTime _ _).
          rewrite (advance_in_eq _ _ s1 : advance s1 = _).
          destruct (_ <=? _); [destruct (_ <=? _) |]; cbn;
            repeat split; lia.
        - cbn. repeat split; lia. }
      destruct Hmono as (Ht1 & He1 & Hr1 & Hs1).
      destruct (IH w1 Hok1) as (w' & Hloop & Hok' & Hc' & Ht' & He' & Hr' & Hs').
      exists w'. rewrite Hstep, Hloop.
      split; [reflexivity |]. split; [exact Hok' |].
      repeat split; try lia; congruence.
    + exists w. split; [reflexivity |]. split; [exact Hok |].
      repeat split; try lia; congruence.
Qed.

(** X9: The loop as a whole, in any environment: from an in-range cursor no
    number of turns makes it throw; the cursor stays in range; cycleCount,
    totalImported and errors never decrease; the loop itself never changes
    isRunning or startTime. *)
Theorem runContinuousImport_never_throws (fuel : nat) (w : World env) :
  cursor_ok (st w) ->
  exists w',
    runContinuousImport fuel w = (Ok tt, w')
    /\ cursor_ok (st w')
    /\ cycleCount (st w) <= cycleCount (st w')
    /\ totalImported (st w) <= totalImported (st w')
    /\ errors (st w) <= errors (st w')
    /\ isRunning (st w') = isRunning (st w)
    /\ startTime (st w') = startTime (st w).
Proof.
  intros Hok. unfold runContinuousImport. run_M'. cbv beta.
  exact (import_loop_total fuel (emit (Ev_log Log_starting) w) Hok).
Qed.

(** A turn of the loop whose fetch returns something not iterable. *)
Lemma import_step_run_throw (w : World env) province w2 :
  js_index ALL_PROVINCES (currentProvinceIndex (st w)) = Some province ->
  fetchFromOSM province
    (js_index ESTABLISHMENT_TYPES (currentTypeIndex (st w)))
    (loc_radius province * 1000)
    (emit (Ev_log (Log_cycle (cycleCount (st w) + 1) (loc_name province)
                     (js_index ESTABLISHMENT_TYPES (currentTypeIndex (st w)))))
       w)
  = (Ok NotIterable, w2) ->
  exists w',
    import_step w = (Ok tt, w')
    /\ st w' = set_errors (errors (st w2) + 1) (st w2)
    /\ db w' = db w2.
Proof.
  intros Hprov Hf.
  unfold import_step. run_M'. cbv beta. rewrite Hprov, Hf. cbn.
  eexists. split; [reflexivity |]. split; reflexivity.
Qed.

End PipelineBehaviour.


(** * The insert pass over the reference collection *)

Lemma count_key_app f (a b : list Doc) :
  count_key f (a ++ b) = (count_key f a + count_key f b)%nat.
Proof. unfold count_key. now rewrite List.filter_app, length_app. Qed.

Section MemoryPass.
Variables (delay : Z) (remote : Query -> Outcome Response).
Abbreviation mem := (memory_env delay remote None).

(** The pass, element by element: the collection grows by the documents of
    the elements whose key it did not hold, and afterwards holds the key of
    every element that has coordinates. *)
Lemma memory_insert_loop ests : forall inserted (w : World mem),
  exists w' added,
    insert_loop ests inserted w
    = (Ok (inserted + Z.of_nat (length added)), w')
    /\ db w' = (db w ++ added)%list
    /\ st w' = st w /\ now w' = now w
    /\ Forall (fun d => exists est lat lon,
                 In est ests /\ coordinates est = Some (lat, lon)
                 /\ d = make_doc est lat lon (now w)) added
    /\ (forall est lat lon,
          In est ests -> coordinates est = Some (lat, lon) ->
          count_key (dedup_key est lat lon) (db w') <> 0%nat).
Proof.
  induction ests as [|est rest IH]; intros inserted w.
  - exists w, []. cbn. rewrite app_nil_r, Z.add_0_r.
    split; [reflexivity |]. split; [reflexivity |]. split; [reflexivity |].
    split; [reflexivity |]. split; [constructor |].
    intros est lat lon [].
  - assert (Hstep : exists w1 added1,
              insert_one_element est inserted w
              = (Ok (inserted + Z.of_nat (length added1)), w1)
              /\ db w1 = (db w ++ added1)%list
              /\ st w1 = st w /\ now w1 = now w
              /\ Forall (fun d => exists lat lon,
                           coordinates est = Some (lat, lon)
                           /\ d = make_doc est lat lon (now w)) added1
              /\ (forall lat lon,
                    coordinates est = Some (lat, lon) ->
                    count_key (dedup_key est lat lon) (db w1) <> 0%nat)).
    { destruct (coordinates est) as [[lat lon]|] eqn:Hc.
      - destruct (Nat.eq_dec (count_key (dedup_key est lat lon) (db w)) 0%nat)
          as [Hz|Hnz].
        + destruct (memory_insert_new delay remote est inserted w lat lon Hc Hz)
            as (w1 & Hrun & Hdb & Hst & Hnow).
          exists w1, [make_doc est lat lon (now w)].
          split; [exact Hrun |]. split; [exact Hdb |].
          split; [exact Hst |]. split; [exact Hnow |]. split.
          * constructor; [eauto | constructor].
          * intros lat' lon' [= <- <-].
            rewrite Hdb, count_key_snoc, doc_matches_own_key by exact Hc. lia.
        + destruct (memory_insert_existing delay remote est inserted w lat lon
                      Hc Hnz) as (w1 & Hrun & Hdb & Hst & Hnow).
          exists w1, []. rewrite app_nil_r. cbn [length Z.of_nat].
          rewrite Z.add_0_r.
          split; [exact Hrun |]. split; [exact Hdb |].
          split; [exact Hst |]. split; [exact Hnow |].
          split; [constructor |].
          intros lat' lon' [= <- <-]. now rewrite Hdb.
      - exists w, []. rewrite app_nil_r. cbn [length Z.of_nat].
        rewrite Z.add_0_r.
        split; [now apply insert_one_element_discarded |].
        split; [reflexivity |]. split; [reflexivity |].
        split; [reflexivity |]. split; [constructor |].
        intros lat lon [=]. }
    destruct Hstep as (w1 & added1 & Hrun1 & Hdb1 & Hst1 & Hnow1 & Hall1 & Hkey1).
    destruct (IH (inserted + Z.of_nat (length added1)) w1)
      as (w2 & added2 & Hrun2 & Hdb2 & Hst2 & Hnow2 & Hall2 & Hkey2).
    exists w2, (added1 ++ added2)%list.
    cbn [insert_loop]. unfold mbind, M_bind. rewrite Hrun1, Hrun2.
    rewrite length_app, Nat2Z.inj_add, Z.add_assoc.
    split; [reflexivity |].
    split; [now rewrite Hdb2, Hdb1, app_assoc |].
    split; [congruence |]. split; [congruence |]. split.
    + apply Forall_app. split.
      * eapply Forall_impl; [exact Hall1 |]. cbn.
        intros d (lat & lon & Hc & Hd). exists est, lat, lon. auto.
      * eapply Forall_impl; [exact Hall2 |]. cbn.
        intros d (est' & lat & lon & Hin & Hc & Hd).
        exists est', lat, lon. rewrite <- Hnow1. auto.
    + intros est' lat lon [<- | Hin] Hc.
      * rewrite Hdb2, count_key_app. specialize (Hkey1 lat lon Hc). lia.
      * now apply Hkey2.
Qed.

(** A pass over elements whose keys are all stored inserts nothing. *)
Lemma memory_insert_loop_stored ests : forall inserted (w : World mem),
  (forall est lat lon,
     In est ests -> coordinates est = Some (lat, lon) ->
     count_key (dedup_key est lat lon) (db w) <> 0%nat) ->
  exists w',
    insert_loop ests inserted w = (Ok inserted, w')
    /\ db w' = db w /\ st w' = st w.
Proof.
  induction ests as [|est rest IH]; intros inserted w Hstored.
  - exists w. auto.
  - assert (Hstep : exists w1,
              insert_one_element est inserted w = (Ok inserted, w1)
              /\ db w1 = db w /\ st w1 = st w).
    { destruct (coordinates est) as [[lat lon]|] eqn:Hc.
      - destruct (memory_insert_existing delay remote est inserted w lat lon Hc)
          as (w1 & Hrun & Hdb & Hst & _); [| eauto].
        apply Hstored; [now left | exact Hc].
      - exists w. split; [now apply insert_one_element_discarded | auto]. }
    destruct Hstep as (w1 & Hrun1 & Hdb1 & Hst1).
    destruct (IH inserted w1) as (w2 & Hrun2 & Hdb2 & Hst2).
    { intros est' lat lon Hin Hc. rewrite Hdb1.
      apply Hstored; [now right | exact Hc]. }
    exists w2. cbn [insert_loop]. unfold mbind, M_bind.
    rewrite Hrun1, Hrun2. repeat split; congruence.
Qed.

Lemma insertToDatabase_as_loop l (w : World mem) :
  insertToDatabase (Arr l) w = insert_loop l 0 w.
Proof. destruct l; reflexivity. Qed.

(** X10: Over a working store the pass only appends: the collection afterwards
    is the collection before followed by the new documents, the returned
    count is the number of documents appended, and each new document is the
    normalisation of an element of the fetch that has coordinates. *)
Theorem insertToDatabase_appends l (w : World mem) :
  exists w' added,
    insertToDatabase (Arr l) w = (Ok (Z.of_nat (length added)), w')
    /\ db w' = (db w ++ added)%list
    /\ st w' = st w
    /\ Forall (fun d => exists est lat lon,
                 In est l /\ coordinates est = Some (lat, lon)
                 /\ d = make_doc est lat lon (now w)) added.
Proof.
  rewrite insertToDatabase_as_loop.
  destruct (memory_insert_loop l 0 w)
    as (w' & added & Hrun & Hdb & Hst & _ & Hall & _).
  exists w', added. auto.
Qed.

(** X11: Insert then look up: after a pass over a working store, the existence
    check finds a document for every element of the fetch that has
    coordinates. *)
Theorem insertToDatabase_then_found l (w : World mem) :
  exists n w',
    insertToDatabase (Arr l) w = (Ok n, w')
    /\ forall est lat lon,
         In est l -> coordinates est = Some (lat, lon) ->
         exists d,
           @findOne mem (dedup_key est lat lon) (db w')
           = (Resolved (Some d), db w')
           /\ doc_matches (dedup_key est lat lon) d = true.
Proof.
  rewrite insertToDatabase_as_loop.
  destruct (memory_insert_loop l 0 w)
    as (w' & added & Hrun & _ & _ & _ & _ & Hkeys).
  eexists _, w'. split; [exact Hrun |].
  intros est lat lon Hin Hc.
  destruct (count_key_find_some _ _ (Hkeys est lat lon Hin Hc)) as [d Hd].
  exists d. cbn. rewrite Hd. split; [reflexivity |].
  now apply List.find_some in Hd.
Qed.

(** X12: The pass is idempotent: running it again over the same fetch, on the
    collection the first run left, inserts nothing and leaves the
    collection as it is. *)
Theorem insertToDatabase_idempotent l (w : World mem) :
  exists n w1 w2,
    insertToDatabase (Arr l) w = (Ok n, w1)
    /\ insertToDatabase (Arr l) w1 = (Ok 0, w2)
    /\ db w2 = db w1.
Proof.
  rewrite insertToDatabase_as_loop.
  destruct (memory_insert_loop l 0 w)
    as (w1 & added & Hrun & _ & _ & _ & _ & Hkeys).
  destruct (memory_insert_loop_stored l 0 w1 Hkeys) as (w2 & Hrun2 & Hdb2 & _).
  eexists _, w1, w2. split; [exact Hrun |].
  rewrite insertToDatabase_as_loop. auto.
Qed.

End MemoryPass.

(** X13: While every insert fails, a pass imports nothing, whatever it fetched:
    it returns 0 and leaves the collection and the importer state as they
    were. *)
Theorem insertToDatabase_during_outage delay remote failure l
    (w : World (memory_env delay remote (Some failure))) :
  exists w',
    insertToDatabase (Arr l) w = (Ok 0, w')
    /\ db w' = db w /\ st w' = st w.
Proof.
  assert (Hloop : forall ests inserted
                         (w : World (memory_env delay remote (Some failure))),
            exists w',
              insert_loop ests inserted w = (Ok inserted, w')
              /\ db w' = db w /\ st w' = st w).
  { induction ests as [|est rest IH]; intros inserted w0.
    - exists w0. auto.
    - assert (Hstep : exists w1,
                insert_one_element est inserted w0 = (Ok inserted, w1)
                /\ db w1 = db w0 /\ st w1 = st w0).
      { destruct (coordinates est) as [[lat lon]|] eqn:Hc.
        - rewrite (insert_one_element_run est inserted w0 lat lon Hc). cbn.
          destruct (List.find _ (db w0)); eexists; split; reflexivity || auto.
        - exists w0. split; [now apply insert_one_element_discarded | auto]. }
      destruct Hstep as (w1 & Hrun1 & Hdb1 & Hst1).
      destruct (IH inserted w1) as (w2 & Hrun2 & Hdb2 & Hst2).
      exists w2. cbn [insert_loop]. unfold mbind, M_bind.
      rewrite Hrun1, Hrun2. repeat split; congruence. }
  destruct l as [|est rest]; [exists w; auto |].
  apply (Hloop (est :: rest) 0 w).
Qed.

(** * The status endpoint and the keep-alive *)

(** X14: With the cursor in range, [/stats] names a province and a type (the
    optional chaining never yields [undefined]), and they are those of the
    query the next turn of the loop sends, whose radius is the province's
    radius in metres. *)
Theorem stats_names_current_work_unit p (s : State) pings date_now :
  cursor_ok s ->
  exists province type,
    stats_currentProvince (stats p s pings date_now) = Some (loc_name province)
    /\ stats_currentType (stats p s pings date_now) = Some type
    /\ In province ALL_PROVINCES
    /\ In type ESTABLISHMENT_TYPES
    /\ current_query s
       = Some (mkQuery (Some type) (loc_radius province * 1000)
                 (loc_lat province) (loc_lon province)).
Proof.
  intros [Hp Ht].
  destruct (js_index_in_range ALL_PROVINCES _ Hp) as [province Hprov].
  destruct (js_index_in_range ESTABLISHMENT_TYPES _ Ht) as [type Htype].
  assert (Hin : forall A (l : list A) i x, js_index l i = Some x -> In x l).
  { intros A l i x. unfold js_index. destruct (i <? 0); [discriminate |].
    intros H. apply list_elem_of_In. eapply list_elem_of_lookup_2. exact H. }
  exists province, type.
  split; [unfold stats; cbn [stats_currentProvince]; rewrite Hprov; reflexivity |].
  split; [unfold stats; cbn [stats_currentType]; exact Htype |].
  split; [exact (Hin _ _ _ _ Hprov) |].
  split; [exact (Hin _ _ _ _ Htype) |].
  unfold current_query. rewrite Hprov, Htype. reflexivity.
Qed.

(** X15: [startKeepAlive] sets timers only in production, with a configured URL
    other than the placeholder, and when no interval is running yet; it
    then sets exactly a first ping after one minute and a ping every 14
    minutes.  In every other case it sets no timer. *)
Theorem startKeepAlive_timers (p : ProcessEnv) (k : KeepAlive) :
  let k' := startKeepAlive p k in
  pingCount k' = pingCount k
  /\ ((env_NODE_ENV p = Some "production"
       /\ truthy_opt (RENDER_EXTERNAL_URL p) = true
       /\ RENDER_EXTERNAL_URL p <> Some "YOUR_RENDER_URL"
       /\ keepAliveInterval k = None
       /\ timers k' = (timers k ++ [Timeout_ping 60000; Interval_ping 840000])%list
       /\ keepAliveInterval k' = Some (Interval_ping 840000))
      \/ ((env_NODE_ENV p <> Some "production"
           \/ truthy_opt (RENDER_EXTERNAL_URL p) = false
           \/ RENDER_EXTERNAL_URL p = Some "YOUR_RENDER_URL"
           \/ keepAliveInterval k <> None)
          /\ timers k' = timers k
          /\ keepAliveInterval k' = keepAliveInterval k)).
Proof.
  cbv zeta. unfold startKeepAlive.
  case_bool_decide as Hprod; cbn [negb].
  - destruct (truthy_opt (RENDER_EXTERNAL_URL p)) eqn:Hurl; cbn [negb orb].
    + case_bool_decide as Hplace.
      * split; [reflexivity |]. right. auto.
      * destruct (keepAliveInterval k) as [t|] eqn:Hk.
        -- split; [reflexivity |]. right. cbn. rewrite Hk.
           split; [| auto]. do 3 right. discriminate.
        -- split; [reflexivity |]. left. cbn.
           rewrite <- app_assoc. auto 10.
    + split; [reflexivity |]. right. auto.
  - split; [reflexivity |]. right. auto.
Qed.

(** X16: Starting the keep-alive twice is the same as starting it once, as far
    as timers go: the second call sets none. *)
Theorem startKeepAlive_idempotent (p : ProcessEnv) (k : KeepAlive) :
  let k1 := startKeepAlive p k in
  let k2 := startKeepAlive p k1 in
  timers k2 = timers k1
  /\ keepAliveInterval k2 = keepAliveInterval k1
  /\ pingCount k2 = pingCount k1.
Proof.
  cbv zeta. unfold startKeepAlive.
  destruct (bool_decide (env_NODE_ENV p = Some "production")); cbn [negb];
    [| auto].
  destruct (negb (truthy_opt (RENDER_EXTERNAL_URL p))
            || bool_decide (RENDER_EXTERNAL_URL p = Some "YOUR_RENDER_URL"));
    [auto |].
  destruct (keepAliveInterval k) as [t|] eqn:Hk; cbn.
  - rewrite Hk. auto.
  - auto.
Qed.

(** X17: The ping counter counts the pings that were answered, whatever the
    status, and only those: a ping whose request fails is logged and not
    counted.  Pings set no timer. *)
Theorem ping_series_counts_answers answers (s : State) (k : KeepAlive) :
  let k' := ping_series answers s k in
  pingCount k' = pingCount k + Z.of_nat (length (List.filter answered answers))
  /\ timers k' = timers k
  /\ keepAliveInterval k' = keepAliveInterval k
  /\ length (ka_log k') = (length (ka_log k) + length answers)%nat.
Proof.
  cbv zeta. unfold ping_series. revert k.
  induction answers as [|[answer duration] rest IH]; intros k.
  - cbn. repeat split; lia.
  - cbn [fold_left fst snd].
    destruct (IH (pingSelf answer duration s k)) as (Hc & Ht & Hi & Hl).
    rewrite Hc, Ht, Hi, Hl. clear IH Hc Ht Hi Hl.
    unfold pingSelf, answered. cbn [fst List.filter].
    destruct answer as [response_st|error]; cbn [length].
    + destruct (response_st =? 200); cbn; rewrite length_app; cbn;
        repeat split; lia.
    + cbn. rewrite length_app. cbn. repeat split; lia.
Qed.

(** * The read endpoint and the start of a turn, in any environment *)

Section Endpoints.
Context {env : Environment}.

(** X18: [/api/recent] never throws and never touches the importer state: it
    asks the collection once, with a limit that is never 0, and answers
    200 with [success: true] when the query resolves, 500 with
    [success: false] and the error message when it rejects. *)
Theorem api_recent_always_answers param (w : World env) :
  exists r w',
    api_recent param w = (Ok r, w')
    /\ st w' = st w /\ now w' = now w /\ net w' = net w
    /\ recent_limit param <> 0
    /\ ((exists docs d,
           find_sort_limit None (mkSort "addedAt" (-1)) (recent_limit param)
             (db w) = (Resolved docs, d)
           /\ status r = 200
           /\ body r = [("success", J_bool true);
                        ("count", J_num (js_length docs));
                        ("establishments", J_docs docs)]
           /\ trace w' = (trace w ++ [Ev_find (recent_limit param)])%list)
        \/ (exists e d,
              find_sort_limit None (mkSort "addedAt" (-1)) (recent_limit param)
             (db w) = (Rejected e, d)
              /\ status r = 500
              /\ body r = [("success", J_bool false);
                           ("error", J_str (message e))]
              /\ trace w'
                 = (trace w ++ [Ev_find (recent_limit param);
                                Ev_log (Log_recent_error (message e))])%list)).
Proof.
  unfold api_recent, try_catch, mbind, M_bind, mret, M_ret, collection_find,
    log, await.
  destruct (find_sort_limit None (mkSort "addedAt" (-1)) (recent_limit param)
             (db w)) as [[docs|e] d] eqn:H.
  - eexists _, _. split; [reflexivity |]. cbn.
    repeat split; [apply recent_limit_nonzero |].
    left. exists docs, d. auto.
  - eexists _, _. split; [reflexivity |]. cbn.
    repeat split; [apply recent_limit_nonzero |].
    right. exists e, d. rewrite <- app_assoc. auto.
Qed.

(** X19: A turn of the loop from an in-range cursor begins by logging the work
    unit under the cursor and posting that work unit's query: nothing is
    fetched but the current (province, type). *)
Theorem import_step_fetches_current_work_unit (w : World env) :
  cursor_ok (st w) ->
  exists province type q w' rest,
    js_index ALL_PROVINCES (currentProvinceIndex (st w)) = Some province
    /\ js_index ESTABLISHMENT_TYPES (currentTypeIndex (st w)) = Some type
    /\ current_query (st w) = Some q
    /\ import_step w = (Ok tt, w')
    /\ trace w'
       = (trace w
          ++ Ev_log (Log_cycle (cycleCount (st w) + 1) (loc_name province)
                       (Some type))
          :: Ev_post q :: rest)%list.
Proof.
  intros [Hp Ht].
  destruct (js_index_in_range ALL_PROVINCES _ Hp) as [province Hprov].
  destruct (js_index_in_range ESTABLISHMENT_TYPES _ Ht) as [type Htype].
  exists province, type. unfold current_query. rewrite Hprov, Htype.
  eexists.
  unfold import_step, mbind, M_bind, get_state, try_catch, log. cbv beta.
  rewrite Hprov, Htype.
  match goal with
  | |- context [fetchFromOSM ?l ?t ?r ?w0] =>
      destruct (fetchFromOSM_total l t r w0)
        as (els & w2 & evs1 & Hf & _ & _ & Ht2 & _);
      rewrite Hf
  end.
  cbn [trace emit] in Ht2. rewrite <- app_assoc in Ht2. cbn in Ht2.
  destruct els as [l|].
  - destruct (insertToDatabase_events l w2)
      as (n & w3 & evs2 & Hi & Ht3 & _).
    rewrite Hi.
    unfold modify_state, new_Date, mret, M_ret, sleep, log.
    destruct (n >? 0), (completes_cycle _);
      eexists _, _; (split; [reflexivity |]); (split; [reflexivity |]);
      (split; [reflexivity |]); (split; [reflexivity |]);
      cbn [trace emit set_now set_st]; rewrite Ht3, Ht2;
      rewrite <- ?app_assoc; cbn; reflexivity.
  - eexists _, _. split; [reflexivity |]. split; [reflexivity |].
    split; [reflexivity |]. split; [reflexivity |].
    cbn [trace emit set_now set_st]. rewrite Ht2.
    rewrite <- ?app_assoc. cbn. reflexivity.
Qed.

End Endpoints.

(** X20: Over the reference collection [/api/recent] is read-only: it always
    answers 200, leaves the collection, the importer state and the clock as
    they were, and returns documents of the collection only, at most as
    many as the absolute value of the limit. *)
Theorem api_recent_read_only delay remote outage param
    (w : World (memory_env delay remote outage)) :
  exists docs w',
    api_recent param w
    = (Ok (mkHttpResponse 200
             [("success", J_bool true);
              ("count", J_num (js_length docs));
              ("establishments", J_docs docs)]), w')
    /\ db w' = db w /\ st w' = st w /\ now w' = now w
    /\ (forall d, In d docs -> In d (db w))
    /\ (length docs <= Z.abs_nat (recent_limit param))%nat.
Proof.
  destruct (api_recent_memory delay remote outage param w) as [Hrun Hlen].
  cbv zeta in Hrun, Hlen.
  eexists _, _. split; [exact Hrun |].
  repeat split.
  - intros d Hd.
    apply list_elem_of_In, elem_of_take in Hd as (i & Hd & _).
    apply list_elem_of_lookup_2 in Hd.
    rewrite merge_sort_Permutation in Hd. now apply list_elem_of_In.
  - rewrite Hlen. lia.
Qed.

(** * Startup and shutdown *)

Section StartupFacts.
Context {env : Environment}.

(** X21: Without a store URI ([MONGODB_URI] and [DATABASE_URL] both unset or
    empty) [main] exits with code 1 before anything else happens: no
    connection is attempted, no client is created, the import state is
    untouched and no timer is set. *)
Theorem main_without_store_uri p connect fuel (pr : Process env) :
  truthy_opt (MONGODB_URI p) = false ->
  exists pr',
    main p connect fuel pr = (Some 1, pr')
    /\ proc_world pr' = proc_world pr
    /\ proc_keepalive pr' = proc_keepalive pr
    /\ mongoClient pr' = mongoClient pr
    /\ proc_events pr'
       = (proc_events pr
          ++ [Pe_banner; Pe_log_config (IMPORT_MODE p) IMPORT_DELAY false;
              Pe_log_missing_uri; Pe_exit 1])%list.
Proof.
  intros H. unfold main. rewrite H. unfold truthy_opt in H.
  destruct (MONGODB_URI p) as [uri|]; [rewrite H |];
    (eexists; split; [reflexivity |]); cbn; rewrite <- app_assoc; auto.
Qed.

(** X22: When the connection to the store fails, [main] exits with code 1
    without starting anything: the import state is untouched (isRunning
    stays as it was), no timer is set and nothing is listened on. *)
Theorem main_connect_failure p error fuel (pr : Process env) uri :
  MONGODB_URI p = Some uri ->
  truthy_str uri = true ->
  exists pr',
    main p (Rejected error) fuel pr = (Some 1, pr')
    /\ proc_world pr' = proc_world pr
    /\ proc_keepalive pr' = proc_keepalive pr
    /\ mongoClient pr' = Some uri
    /\ proc_events pr'
       = (proc_events pr
          ++ [Pe_banner; Pe_log_config (IMPORT_MODE p) IMPORT_DELAY true;
              Pe_connect uri; Pe_log_fatal (message error); Pe_exit 1])%list.
Proof.
  intros Huri Ht. unfold main, truthy_opt. rewrite Huri, Ht. cbn [negb].
  eexists. split; [reflexivity |]. cbn. rewrite <- !app_assoc. auto.
Qed.

(** X23: Once connected, [main] never reaches its fatal handler because of the
    import loop: from an in-range cursor, however many turns are observed,
    the process is alive, the state is marked running with the start time
    taken from the clock, the cursor is in range, the keep-alive was
    started once, and the store was connected with [MONGODB_URI], or with
    [DATABASE_URL] when that is unset or empty. *)
Theorem main_keeps_running p fuel (pr : Process env) uri :
  MONGODB_URI p = Some uri ->
  truthy_str uri = true ->
  cursor_ok (st (proc_world pr)) ->
  exists pr',
    main p (Resolved tt) fuel pr = (None, pr')
    /\ isRunning (st (proc_world pr')) = true
    /\ startTime (st (proc_world pr')) = Some (now (proc_world pr))
    /\ cursor_ok (st (proc_world pr'))
    /\ proc_keepalive pr' = startKeepAlive p (proc_keepalive pr)
    /\ mongoClient pr' = Some uri
    /\ proc_events pr'
       = (proc_events pr
          ++ [Pe_banner; Pe_log_config (IMPORT_MODE p) IMPORT_DELAY true;
              Pe_connect uri; Pe_log_connected; Pe_listen (PORT p)])%list
    /\ (uri = default "" (env_MONGODB_URI p)
        \/ (truthy_opt (env_MONGODB_URI p) = false
            /\ uri = default "" (env_DATABASE_URL p))).
Proof.
  intros Huri Ht Hok. unfold main, truthy_opt. rewrite Huri, Ht. cbn [negb].
  cbv zeta.
  unfold runContinuousImport, mbind, M_bind, log. cbv beta.
  match goal with
  | |- context [import_loop fuel ?w0] =>
      destruct (import_loop_total fuel w0 Hok)
        as (w' & Hrun & Hok' & _ & _ & _ & Hr & Hs);
      rewrite Hrun
  end.
  eexists. split; [reflexivity |]. cbn in Hr, Hs |- *.
  split; [exact Hr |]. split; [exact Hs |]. split; [exact Hok' |].
  split; [reflexivity |]. split; [reflexivity |].
  split; [now rewrite <- !app_assoc |].
  unfold MONGODB_URI, js_or, truthy_opt in *.
  destruct (env_MONGODB_URI p) as [v|].
  - destruct (truthy_str v).
    + left. now injection Huri as <-.
    + right. rewrite Huri. auto.
  - right. rewrite Huri. auto.
Qed.

(** X24: The signal handler stops the loop before anything else: whatever
    happens next, isRunning is false afterwards, so that no further turn
    would start, and nothing else in the import state has changed.  It
    clears the keep-alive interval when one was set, closes the store
    client when one was created, and exits with code 0 unless that close
    fails, in which case the failure escapes the handler and no exit is
    requested. *)
Theorem shutdown_stops_the_loop signal close (pr : Process env) :
  exists r pr',
    shutdown signal close pr = (r, pr')
    /\ st (proc_world pr') = set_isRunning false (st (proc_world pr))
    /\ (forall fuel,
          import_loop fuel (proc_world pr') = (Ok tt, proc_world pr'))
    /\ proc_events pr'
       = (proc_events pr
          ++ Pe_log_shutdown signal
          :: match keepAliveInterval (proc_keepalive pr) with
             | Some t => [Pe_clearInterval t]
             | None => []
             end
          ++ match mongoClient pr with
             | Some uri => [Pe_close uri]
             | None => []
             end
          ++ match r with
             | Ok _ => [Pe_exit 0]
             | Throw _ => []
             end)%list
    /\ match mongoClient pr, close with
       | Some _, Rejected error => r = Throw error
       | _, _ => r = Ok 0
       end.
Proof.
  unfold shutdown. cbv zeta.
  destruct (keepAliveInterval (proc_keepalive pr)) as [t|] eqn:Hk;
    destruct (mongoClient pr) as [uri|] eqn:Hm;
    cbn; rewrite ?Hk, ?Hm; cbn; rewrite ?Hm;
    try destruct close as [[]|error];
    (eexists _, _; split; [reflexivity |]); cbn;
    (split; [reflexivity |]);
    (split; [intros [|fuel]; reflexivity |]);
    rewrite <- ?app_assoc; cbn; auto.
Qed.

End StartupFacts.

(** * A failed request, and the limit parameter *)

Section FailedRequest.
Context {env : Environment}.


End FailedRequest.

(** ** The limit parameter *)






(** * Keys stay distinct *)

Lemma distinct_keys_nil : distinct_keys [].
Proof. intros [|d0 earlier] d later H; discriminate H. Defined.

(** Appending a document whose key the collection does not hold keeps the
    keys distinct. *)
Lemma distinct_keys_snoc docs est lat lon date :
  distinct_keys docs ->
  count_key (dedup_key est lat lon) docs = 0%nat ->
  distinct_keys (docs ++ [make_doc est lat lon date]).
Proof.
  intros Hdistinct Hnew earlier d later Heq.
  destruct later as [|x later _] using rev_ind.
  - apply app_inj_tail in Heq as [<- <-]. exact Hnew.
  - change (earlier ++ d :: later ++ [x])%list
      with (earlier ++ (d :: later) ++ [x])%list in Heq.
    rewrite app_assoc in Heq.
    apply app_inj_tail in Heq as [Heq _].
    exact (Hdistinct earlier d later Heq).
Qed.

(** X27: Over a working store an insert pass never stores a document under a
    key the collection already holds: if no stored document repeats the
    (latitude, longitude, name) of an earlier one before the pass, none
    does after it, whatever was fetched. *)
Theorem insertToDatabase_keeps_keys_distinct delay remote l
    (w : World (memory_env delay remote None)) :
  distinct_keys (db w) ->
  exists n w',
    insertToDatabase (Arr l) w = (Ok n, w')
    /\ distinct_keys (db w').
Proof.
  rewrite insertToDatabase_as_loop. generalize 0 as inserted.
  revert w. induction l as [|est rest IH]; intros w inserted Hdistinct.
  - exists inserted, w. auto.
  - assert (Hstep : exists n1 w1,
              insert_one_element est inserted w = (Ok n1, w1)
              /\ distinct_keys (db w1)).
    { destruct (coordinates est) as [[lat lon]|] eqn:Hc.
      - destruct (Nat.eq_dec (count_key (dedup_key est lat lon) (db w)) 0%nat)
          as [Hz|Hnz].
        + destruct (memory_insert_new delay remote est inserted w lat lon Hc Hz)
            as (w1 & Hrun & Hdb & _).
          exists (inserted + 1), w1. split; [exact Hrun |].
          rewrite Hdb. now apply distinct_keys_snoc.
        + destruct (memory_insert_existing delay remote est inserted w lat lon
                      Hc Hnz) as (w1 & Hrun & Hdb & _).
          exists inserted, w1. split; [exact Hrun |]. now rewrite Hdb.
      - exists inserted, w.
        split; [now apply insert_one_element_discarded | exact Hdistinct]. }
    destruct Hstep as (n1 & w1 & Hrun1 & Hd1).
    destruct (IH w1 n1 Hd1) as (n2 & w2 & Hrun2 & Hd2).
    exists n2, w2. cbn [insert_loop]. unfold mbind, M_bind.
    now rewrite Hrun1, Hrun2.
Qed.

Lemma insertToDatabase_keeps_keys_distinct_witness :
  let w := start_world (reliable_env []) [] tt in
  distinct_keys (db w)
  /\ exists n w',
       insertToDatabase (Arr [sample_cafe; sample_cafe_twin; sample_way]) w
       = (Ok n, w')
       /\ distinct_keys (db w').
Proof.
  intros w.
  split; [exact distinct_keys_nil |].
  exact (insertToDatabase_keeps_keys_distinct 3000 (answer [])
           [sample_cafe; sample_cafe_twin; sample_way] w distinct_keys_nil).
Defined.

(** * totalImported accounts for the collection *)

Section Accounting.
Variables (delay : Z) (remote : Query -> Outcome Response).
Abbreviation store := (memory_env delay remote None).

(** A turn of the loop over a working store. *)
Lemma memory_import_step (w : World store) :
  cursor_ok (st w) ->
  exists w' added,
    import_step w = (Ok tt, w')
    /\ db w' = (db w ++ added)%list
    /\ totalImported (st w')
       = totalImported (st w) + Z.of_nat (length added)
    /\ cursor_ok (st w')
    /\ isRunning (st w') = isRunning (st w).
Proof.
  intros Hok.
  destruct (import_step_preserves_cursor w Hok) as (w0' & Hstep0 & Hok' & _).
  destruct Hok as [Hp Ht].
  destruct (js_index_in_range ALL_PROVINCES _ Hp) as [province Hprov].
  destruct (fetchFromOSM_total province
              (js_index ESTABLISHMENT_TYPES (currentTypeIndex (st w)))
              (loc_radius province * 1000)
              (emit (Ev_log (Log_cycle (cycleCount (st w) + 1)
                               (loc_name province)
                               (js_index ESTABLISHMENT_TYPES
                                  (currentTypeIndex (st w))))) w))
    as (els & w2 & evs & Hf & Hst2 & Hdb2 & _).
  cbn [st db emit] in Hst2, Hdb2.
  destruct els as [l|].
  - destruct (memory_insert_loop delay remote l 0 w2)
      as (w3 & added & Hloop & Hdb3 & Hst3 & _).
    assert (Hi : insertToDatabase (Arr l) w2
                 = (Ok (Z.of_nat (length added)), w3)).
    { rewrite insertToDatabase_as_loop. exact Hloop. }
    destruct (import_step_run w province l w2 _ w3 Hprov Hf Hi)
      as (w' & Hstep & Hst & Hdb).
    rewrite Hstep in Hstep0. injection Hstep0 as <-.
    exists w', added. split; [exact Hstep |].
    split; [now rewrite Hdb, Hdb3, Hdb2 |].
    destruct (advance_in_frame (js_length ALL_PROVINCES)
                (js_length ESTABLISHMENT_TYPES)
                (set_lastImportTime (Some (now w3))
                   (set_totalImported
                      (totalImported (st w3) + Z.of_nat (length added))
                      (st w3)))) as (Htot & _ & Hrun & _).
    split; [| split; [exact Hok' |]].
    + rewrite Hst. unfold advance. rewrite Htot. cbn. now rewrite Hst3, Hst2.
    + rewrite Hst. unfold advance. rewrite Hrun. cbn. now rewrite Hst3, Hst2.
  - destruct (import_step_run_throw w province w2 Hprov Hf)
      as (w' & Hstep & Hst & Hdb).
    rewrite Hstep in Hstep0. injection Hstep0 as <-.
    exists w', []. split; [exact Hstep |].
    rewrite app_nil_r, Hdb, Hdb2, Hst, Hst2. cbn. rewrite Z.add_0_r.
    rewrite Hst, Hst2 in Hok'. auto.
Qed.

(** X28: Over a working store the counter accounts for the collection: after
    any number of turns the collection is what it was followed by the new
    documents, and totalImported has grown by exactly their number. *)
Theorem import_loop_accounts_for_inserts (fuel : nat) (w : World store) :
  cursor_ok (st w) ->
  exists w' added,
    import_loop fuel w = (Ok tt, w')
    /\ db w' = (db w ++ added)%list
    /\ totalImported (st w')
       = totalImported (st w) + Z.of_nat (length added).
Proof.
  revert w. induction fuel as [|fuel IH]; intros w Hok.
  - exists w, []. rewrite app_nil_r. cbn. repeat split. lia.
  - destruct (isRunning (st w)) eqn:Hrun.
    + destruct (memory_import_step w Hok)
        as (w1 & added1 & Hstep & Hdb1 & Htot1 & Hok1 & _).
      destruct (IH w1 Hok1) as (w2 & added2 & Hloop & Hdb2 & Htot2).
      exists w2, (added1 ++ added2)%list.
      rewrite (import_loop_continues w w1 fuel Hstep Hrun).
      split; [exact Hloop |].
      rewrite Hdb2, Hdb1, Htot2, Htot1, app_assoc, length_app.
      split; [reflexivity | lia].
    + exists w, []. rewrite app_nil_r.
      cbn [import_loop]. unfold mbind, M_bind, get_state. cbv beta.
      rewrite Hrun. repeat split. cbn. lia.
Qed.

End Accounting.

Lemma import_loop_accounts_for_inserts_witness :
  let w := start_world (reliable_env [sample_cafe; sample_cafe_twin]) [] tt in
  cursor_ok (st w)
  /\ exists w' added,
       import_loop 3 w = (Ok tt, w')
       /\ db w' = (db w ++ added)%list
       /\ totalImported (st w')
          = totalImported (st w) + Z.of_nat (length added).
Proof.
  intros w. split; [exact cursor_ok_initial |].
  exact (import_loop_accounts_for_inserts 3000
           (answer [sample_cafe; sample_cafe_twin]) 3 w cursor_ok_initial).
Defined.

(** *** Concrete runs of the further properties *)

Lemma reliable_answers_iterable l :
  forall q (n : @Net (reliable_env l)),
    iterable_answer (fst (@axios_post (reliable_env l) q n)).
Proof. intros q n. cbn. discriminate. Defined.



Lemma import_loop_follows_cursor_witness :
  let w := start_world (reliable_env []) [] tt in
  isRunning (st w) = true
  /\ exists w',
       import_loop 47 w = (Ok tt, w')
       /\ cursor_of (st w') = cursor_of (Nat.iter 47 advance (st w)).
Proof.
  intros w. split; [reflexivity |].
  destruct (import_loop_follows_cursor 47 w (reliable_answers_iterable [])
              cursor_ok_initial eq_refl)
    as (w' & Hloop & Hcur & _).
  exists w'. auto.
Defined.

Lemma import_loop_full_pass_witness :
  let w := start_world (reliable_env [sample_cafe; sample_equator]) [] tt in
  isRunning (st w) = true
  /\ exists w',
       import_loop (length ALL_PROVINCES * length ESTABLISHMENT_TYPES) w
       = (Ok tt, w')
       /\ cycleCount (st w') = 1.
Proof.
  intros w. split; [reflexivity |].
  destruct (import_loop_full_pass w
              (reliable_answers_iterable [sample_cafe; sample_equator])
              cursor_ok_initial eq_refl)
    as (w' & Hloop & _ & _ & Hc & _).
  exists w'. exact (conj Hloop Hc).
Defined.

Lemma runContinuousImport_never_throws_witness :
  let w := start_world (outage_env [sample_cafe]) [] tt in
  cursor_ok (st w)
  /\ exists w', runContinuousImport 5 w = (Ok tt, w') /\ cursor_ok (st w').
Proof.
  intros w. split; [exact cursor_ok_initial |].
  destruct (runContinuousImport_never_throws 5 w cursor_ok_initial)
    as (w' & Hrun & Hok & _).
  exists w'. auto.
Defined.

Lemma stats_names_current_work_unit_witness :
  cursor_ok initial_state
  /\ exists province type,
       stats_currentProvince (stats production_env initial_state 0 0)
       = Some (loc_name province)
       /\ stats_currentType (stats production_env initial_state 0 0)
          = Some type.
Proof.
  split; [exact cursor_ok_initial |].
  destruct (stats_names_current_work_unit production_env initial_state 0 0
              cursor_ok_initial)
    as (province & type & Hp & Ht & _).
  exists province, type. auto.
Defined.

Lemma import_step_fetches_current_work_unit_witness :
  let w := start_world rate_limited_env [] tt in
  cursor_ok (st w)
  /\ exists q w', current_query (st w) = Some q /\ import_step w = (Ok tt, w').
Proof.
  intros w. split; [exact cursor_ok_initial |].
  destruct (import_step_fetches_current_work_unit w cursor_ok_initial)
    as (province & type & q & w' & rest & _ & _ & Hq & Hstep & _).
  exists q, w'. auto.
Defined.

Lemma main_without_store_uri_witness :
  let pr := fresh_process (reliable_env []) [] tt 0 in
  truthy_opt (MONGODB_URI unconfigured_env) = false
  /\ exists pr',
       main unconfigured_env (Resolved tt) 3 pr = (Some 1, pr')
       /\ proc_world pr' = proc_world pr.
Proof.
  intros pr. split; [reflexivity |].
  destruct (main_without_store_uri unconfigured_env (Resolved tt) 3 pr eq_refl)
    as (pr' & Hmain & Hw & _).
  exists pr'. auto.
Defined.

Lemma main_connect_failure_witness :
  let pr := fresh_process (reliable_env []) [] tt 0 in
  MONGODB_URI production_env
  = Some "mongodb://db.example.com/localproductfinder"
  /\ exists pr',
       main production_env (Rejected outage_error) 3 pr = (Some 1, pr')
       /\ proc_world pr' = proc_world pr.
Proof.
  intros pr. split; [reflexivity |].
  destruct (main_connect_failure production_env outage_error 3 pr _
              eq_refl eq_refl)
    as (pr' & Hmain & Hw & _).
  exists pr'. auto.
Defined.

Lemma main_keeps_running_witness :
  let pr := fresh_process (reliable_env [sample_cafe]) [] tt 1000 in
  MONGODB_URI database_url_env = Some "mongodb://fallback.example.com/db"
  /\ cursor_ok (st (proc_world pr))
  /\ exists pr',
       main database_url_env (Resolved tt) 3 pr = (None, pr')
       /\ isRunning (st (proc_world pr')) = true
       /\ mongoClient pr' = Some "mongodb://fallback.example.com/db".
Proof.
  intros pr. split; [reflexivity |]. split; [exact cursor_ok_initial |].
  destruct (main_keeps_running database_url_env 3 pr _ eq_refl eq_refl
              cursor_ok_initial)
    as (pr' & Hmain & Hr & _ & _ & _ & Hc & _).
  exists pr'. auto.
Defined.

Lemma fetchFromOSM_resolved_witness :
  let w := start_world not_iterable_env [] tt in
  let q := overpass_query sample_province (Some "cafe") 30000 in
  @axios_post not_iterable_env q (net w)
  = (Resolved (mkResponse (Some (Some NotIterable))), tt)
  /\ fetchFromOSM sample_province (Some "cafe") 30000 w
     = (Ok NotIterable, set_net (net w) (emit (Ev_post q) w)).
Proof.
  intros w q. split; [reflexivity |].
  exact (fetchFromOSM_resolved sample_province (Some "cafe") 30000 w _ tt
           eq_refl).
Defined.

Lemma insertToDatabase_then_found_witness :
  let w := start_world (reliable_env []) [] tt in
  coordinates sample_way = Some (10.3%float, 123.9%float)
  /\ exists n w' d,
       insertToDatabase (Arr [sample_cafe; sample_way]) w = (Ok n, w')
       /\ @findOne (reliable_env []) (dedup_key sample_way 10.3 123.9) (db w')
          = (Resolved (Some d), db w').
Proof.
  intros w.
  assert (Hc : coordinates sample_way = Some (10.3%float, 123.9%float))
    by reflexivity.
  split; [exact Hc |].
  destruct (insertToDatabase_then_found 3000 (answer [])
              [sample_cafe; sample_way] w) as (n & w' & Hrun & Hfound).
  destruct (Hfound sample_way _ _ (or_intror (or_introl eq_refl)) Hc)
    as (d & Hd & _).
  exists n, w', d. auto.
Defined.

Lemma api_recent_read_only_witness :
  let w := start_world (reliable_env []) sample_docs tt in
  exists r w',
    api_recent (Some (code_units "2")) w = (Ok r, w')
    /\ status r = 200
    /\ db w' = sample_docs.
Proof.
  intros w.
  destruct (api_recent_read_only 3000 (answer []) None
              (Some (code_units "2")) w) as (docs & w' & Hrun & Hdb & _).
  eexists _, w'. split; [exact Hrun |]. split; [reflexivity | exact Hdb].
Defined.


